(** * find-duplicate-files: a shallow embedding and its properties

    The development follows [find-duplicate-files.py]: the glob matcher
    [_Matcher], the path collector [_collect_file_paths], the hashing worker
    [_compute_hash], the aggregation loop of [_file_hashes], the three
    renderers and the tail of [main] that filters the groups and decides the
    exit status.

    Python values are modelled as follows.
    - [str] is [string]; the characters are the bytes of the UTF-8 encoding,
      whose bytewise lexicographic order coincides with Python's code point
      order.
    - [dict] is an insertion-ordered association list with distinct keys.
    - [set] iteration order is arbitrary: it is a parameter of the collector.
    - [pathlib.Path] is the string of the normalised path.
    - the standard library ([fnmatch], [hashlib], [csv], [json], [sorted])
      and [click] are outside the repository; the parts the program relies on
      are modelled next to their callers and marked as such. *)

From Stdlib Require Import ZArith Ascii String List.
From Stdlib.Strings Require Import Byte.
From stdpp Require Import base strings list sorting gmap pretty.

Local Open Scope string_scope.
Local Open Scope list_scope.

(** ** Python dictionaries *)

Module PyDict.

(** A [dict] with [str] keys, in insertion order. *)
Abbreviation t V := (list (string * V)) (only parsing).

Definition keys {V} (d : t V) : list string := d.*1.

(** Well-formed dictionaries have pairwise distinct keys. *)
Definition wf {V} (d : t V) : Prop := NoDup (keys d).

(** [d.get(k)] *)
Fixpoint get {V} (d : t V) (k : string) : option V :=
  match d with
  | [] => None
  | (k', v) :: d' => if decide (k' = k) then Some v else get d' k
  end.

(** [d[k] = v]: an existing key keeps its position. *)
Fixpoint set {V} (k : string) (v : V) (d : t V) : t V :=
  match d with
  | [] => [(k, v)]
  | (k', v') :: d' =>
      if decide (k' = k) then (k', v) :: d' else (k', v') :: set k v d'
  end.

(** The dictionary after [d.setdefault(k, dflt)]. *)
Definition setdefault {V} (k : string) (dflt : V) (d : t V) : t V :=
  match get d k with
  | Some _ => d
  | None => d ++ [(k, dflt)]
  end.

(** In-place mutation of the object stored under [k]. *)
Fixpoint alter {V} (f : V → V) (k : string) (d : t V) : t V :=
  match d with
  | [] => []
  | (k', v) :: d' =>
      if decide (k' = k) then (k', f v) :: d' else (k', v) :: alter f k d'
  end.

(** [{k: v for k, v in kvs}] *)
Definition comprehension {V} (kvs : list (string * V)) : t V :=
  foldl (λ acc kv, set kv.1 kv.2 acc) [] kvs.

(** Truth value of a dictionary: [bool(d)]. *)
Definition truthy {V} (d : t V) : bool :=
  match d with [] => false | _ => true end.

End PyDict.

(** ** Hash results and aggregation *)

(** [class _HashResult(NamedTuple)] *)
Record _HashResult := mk_HashResult { path : string; digest : string }.

(** Model of the built-in [sorted] on a list of [str]: a stable merge sort
  for the lexicographic order. *)
Definition sorted (l : list string) : list string := merge_sort String.le l.

(** One iteration of the loop of [_file_hashes]:
    [hashes.setdefault(res.digest, []).append(res.path)].  [setdefault]
    returns the list stored in the dictionary, so [append] mutates the entry
    in place. *)
Definition consume (hashes : PyDict.t (list string)) (res : _HashResult)
  : PyDict.t (list string) :=
  PyDict.alter (λ paths, paths ++ [path res]) (digest res)
    (PyDict.setdefault (digest res) [] hashes).

(** The state of [hashes] after the loop has consumed [completed]. *)
Definition accumulate (completed : list _HashResult) : PyDict.t (list string) :=
  foldl consume [] completed.

(** [{digest: sorted(paths) for digest, paths in hashes.items()}] *)
Definition finalize (hashes : PyDict.t (list string)) : PyDict.t (list string) :=
  PyDict.comprehension (map (λ dp, (dp.1, sorted dp.2)) hashes).

(** Lines 265-270 of [_file_hashes], on the results in completion order. *)
Definition aggregate (completed : list _HashResult) : PyDict.t (list string) :=
  finalize (accumulate completed).

(** The paths paired with digest [d], in the order of the sequence. *)
Definition paths_with (d : string) (rs : list _HashResult) : list string :=
  path <$> filter (λ r, digest r = d) rs.

(** ** MD5 (RFC 1321)

    [hashlib] is outside the repository.  The default algorithm of the
    program, [md5], is modelled here on 32-bit words held in [Z], with the
    wrap-around written out. *)

Module MD5.
Local Open Scope Z_scope.

Definition w32 (x : Z) : Z := Z.land x 0xFFFFFFFF.
Definition add32 (x y : Z) : Z := w32 (x + y).
Definition not32 (x : Z) : Z := Z.lxor x 0xFFFFFFFF.
Definition rotl32 (x c : Z) : Z :=
  w32 (Z.lor (Z.shiftl x c) (Z.shiftr x (32 - c))).

(** Per-round shift amounts. *)
Definition shifts : list Z :=
  [7; 12; 17; 22; 7; 12; 17; 22; 7; 12; 17; 22; 7; 12; 17; 22;
   5; 9; 14; 20; 5; 9; 14; 20; 5; 9; 14; 20; 5; 9; 14; 20;
   4; 11; 16; 23; 4; 11; 16; 23; 4; 11; 16; 23; 4; 11; 16; 23;
   6; 10; 15; 21; 6; 10; 15; 21; 6; 10; 15; 21; 6; 10; 15; 21].

(** [floor(2^32 * abs(sin(i + 1)))] for [i] in [0..63]. *)
Definition sines : list Z :=
  [0xd76aa478; 0xe8c7b756; 0x242070db; 0xc1bdceee;
   0xf57c0faf; 0x4787c62a; 0xa8304613; 0xfd469501;
   0x698098d8; 0x8b44f7af; 0xffff5bb1; 0x895cd7be;
   0x6b901122; 0xfd987193; 0xa679438e; 0x49b40821;
   0xf61e2562; 0xc040b340; 0x265e5a51; 0xe9b6c7aa;
   0xd62f105d; 0x02441453; 0xd8a1e681; 0xe7d3fbc8;
   0x21e1cde6; 0xc33707d6; 0xf4d50d87; 0x455a14ed;
   0xa9e3e905; 0xfcefa3f8; 0x676f02d9; 0x8d2a4c8a;
   0xfffa3942; 0x8771f681; 0x6d9d6122; 0xfde5380c;
   0xa4beea44; 0x4bdecfa9; 0xf6bb4b60; 0xbebfbc70;
   0x289b7ec6; 0xeaa127fa; 0xd4ef3085; 0x04881d05;
   0xd9d4d039; 0xe6db99e5; 0x1fa27cf8; 0xc4ac5665;
   0xf4292244; 0x432aff97; 0xab9423a7; 0xfc93a039;
   0x655b59c3; 0x8f0ccc92; 0xffeff47d; 0x85845dd1;
   0x6fa87e4f; 0xfe2ce6e0; 0xa3014314; 0x4e0811a1;
   0xf7537e82; 0xbd3af235; 0x2ad7d2bb; 0xeb86d391].

Record state := State { sA : Z; sB : Z; sC : Z; sD : Z }.

Definition init : state :=
  State 0x67452301 0xefcdab89 0x98badcfe 0x10325476.

Definition nthZ (l : list Z) (i : Z) : Z := nth (Z.to_nat i) l 0.

(** Operation [i] of the compression function on the 16 words [m]. *)
Definition step (m : list Z) (st : state) (i : Z) : state :=
  let '(State a b c d) := st in
  let '(f, g) :=
    if i <? 16 then (Z.lor (Z.land b c) (Z.land (not32 b) d), i)
    else if i <? 32 then
      (Z.lor (Z.land d b) (Z.land (not32 d) c), (5 * i + 1) mod 16)
    else if i <? 48 then (Z.lxor b (Z.lxor c d), (3 * i + 5) mod 16)
    else (Z.lxor c (Z.lor b (not32 d)), (7 * i) mod 16) in
  let f' := add32 (add32 (add32 f a) (nthZ sines i)) (nthZ m g) in
  State d (add32 b (rotl32 f' (nthZ shifts i))) b c.

Definition compress (st : state) (m : list Z) : state :=
  let st' := foldl (step m) st (map Z.of_nat (seq 0 64)) in
  State (add32 (sA st) (sA st')) (add32 (sB st) (sB st'))
        (add32 (sC st) (sC st')) (add32 (sD st) (sD st')).

(** Little-endian encodings. *)
Fixpoint le_bytes (n : nat) (x : Z) : list Z :=
  match n with
  | O => []
  | S n' => Z.land x 0xFF :: le_bytes n' (Z.shiftr x 8)
  end.

Fixpoint le_word (bs : list Z) : Z :=
  match bs with
  | [] => 0
  | b :: bs' => Z.lor b (Z.shiftl (le_word bs') 8)
  end.

(** Split into pieces of [n] elements; [fuel] bounds the number of pieces. *)
Fixpoint chunks {A} (fuel n : nat) (l : list A) : list (list A) :=
  match fuel, l with
  | O, _ | _, [] => []
  | S fuel', _ => take n l :: chunks fuel' n (drop n l)
  end.

(** Append bit 1, zeros up to 56 mod 64, then the bit length on 64 bits. *)
Definition pad (msg : list Z) : list Z :=
  let len := Z.of_nat (length msg) in
  let zeros := Z.to_nat ((55 - len) mod 64) in
  msg ++ [0x80] ++ replicate zeros 0 ++ le_bytes 8 ((8 * len) mod 2 ^ 64).

Definition digest_bytes (msg : list Z) : list Z :=
  let padded := pad msg in
  let blocks := chunks (length padded) 64 padded in
  let st := foldl (λ st blk, compress st (le_word <$> chunks 16 4 blk))
              init blocks in
  le_bytes 4 (sA st) ++ le_bytes 4 (sB st)
    ++ le_bytes 4 (sC st) ++ le_bytes 4 (sD st).

Definition hex_digit (x : Z) : ascii :=
  ascii_of_nat (Z.to_nat (if x <? 10 then 48 + x else 87 + x)).

Definition hex (bs : list Z) : string :=
  string_of_list_ascii
    (mbind (M := list) (λ b, [hex_digit (Z.shiftr b 4); hex_digit (Z.land b 0xF)]) bs).

(** [hashlib.md5(data).hexdigest()] *)
Definition hexdigest (data : list byte) : string :=
  hex (digest_bytes (map (λ b, Z.of_N (Byte.to_N b)) data)).

End MD5.


(** ** Strings *)

Module PyStr.

(** [str.isascii]: every byte is below 128. *)
Fixpoint is_ascii (s : string) : bool :=
  match s with
  | EmptyString => true
  | String c s' => (nat_of_ascii c <? 128)%nat && is_ascii s'
  end.

(** [str.lower] on ASCII strings: the letters [A-Z] go to [a-z].  The
    lowercasing of characters outside ASCII is not modelled; their bytes are
    left unchanged. *)
Definition lower_ascii (c : ascii) : ascii :=
  let n := nat_of_ascii c in
  if (65 <=? n)%nat && (n <=? 90)%nat then ascii_of_nat (n + 32) else c.

Fixpoint lower (s : string) : string :=
  match s with
  | EmptyString => EmptyString
  | String c s' => String (lower_ascii c) (lower s')
  end.

(** [s.startswith("!")] *)
Definition startswith_bang (s : string) : bool :=
  match s with
  | String c _ => Ascii.eqb c "!"
  | EmptyString => false
  end.

(** [s[1:]] *)
Definition tail (s : string) : string :=
  match s with
  | String _ s' => s'
  | EmptyString => EmptyString
  end.

(** [sep.join(l)] *)
Fixpoint join (sep : string) (l : list string) : string :=
  match l with
  | [] => ""
  | [s] => s
  | s :: l' => s +:+ sep +:+ join sep l'
  end.

Definition LF : string := String (ascii_of_nat 10) EmptyString.
Definition CRLF : string := String (ascii_of_nat 13) LF.

End PyStr.

(** ** Shell-style patterns

    Model of [fnmatch.fnmatchcase] of the standard library: [*] matches any
    run of characters, [?] one character, [[seq]] one character of the set,
    [[!seq]] one character outside it; a [[] that is never closed is an
    ordinary character.  [fnmatch.fnmatch] first applies [os.path.normcase],
    which is the identity on POSIX systems.  Sets are read as
    [fnmatch.translate] reads them, empty ranges included.  [?] and sets
    consume one byte here and one code point in Python, so the model is the
    library on ASCII names. *)

Module Fnmatch.

Inductive item :=
  | Star
  | AnyChar
  | Lit (c : ascii)
  | Class (negated : bool) (ranges : list (ascii * ascii)).

(** Up to the first [']'], and what follows it. *)
Fixpoint split_close (l : list ascii) : option (list ascii * list ascii) :=
  match l with
  | [] => None
  | c :: l' =>
      if Ascii.eqb c "]" then Some ([], l')
      else '(body, rest) ← split_close l'; Some (c :: body, rest)
  end.

(** The text after a ['[']: the set, which is an optional ['!'], an
    optional [']'] that belongs to the set and everything up to the closing
    [']'], and what follows that [']']. *)
Definition bracket (l : list ascii) : option (list ascii * list ascii) :=
  let '(bang, l1) :=
    match l with
    | c :: r => if Ascii.eqb c "!" then ([c], r) else ([], l)
    | [] => ([], l)
    end in
  let '(lead, l2) :=
    match l1 with
    | c :: r => if Ascii.eqb c "]" then ([c], r) else ([], l1)
    | [] => ([], l1)
    end in
  '(body, rest) ← split_close l2;
  Some (bang ++ lead ++ body, rest).

(** The set is cut at its range hyphens.  The first character of the set
    (the first two after a ['!']) and the two characters after a range
    hyphen are never range hyphens; [skip] counts how many such characters
    are still to come and [cur] is the piece being read. *)
Fixpoint split_chunks (skip : nat) (cur l : list ascii) : list (list ascii) :=
  match l with
  | [] => [cur]
  | c :: l' =>
      match skip with
      | O =>
          if Ascii.eqb c "-" then cur :: split_chunks 2 [] l'
          else split_chunks 0 (cur ++ [c]) l'
      | S n => split_chunks n (cur ++ [c]) l'
      end
  end.

(** A set that ends with a range hyphen: the hyphen goes back to the piece
    before it. *)
Fixpoint close_chunks (chunks : list (list ascii)) : list (list ascii) :=
  match chunks with
  | [c; []] => [c ++ ["-"%char]]
  | c :: rest => c :: close_chunks rest
  | [] => []
  end.

(** From right to left, a range whose start is above its end is removed
    together with both ends, and the two pieces are joined. *)
Fixpoint remove_empty_ranges (chunks : list (list ascii))
  : list (list ascii) :=
  match chunks with
  | [] => []
  | c :: rest =>
      match remove_empty_ranges rest with
      | [] => [c]
      | c' :: rest' =>
          match last c, head c' with
          | Some lo, Some hi =>
              if (N_of_ascii hi <? N_of_ascii lo)%N
              then (removelast c ++ tail c') :: rest'
              else c :: c' :: rest'
          | _, _ => c :: c' :: rest'
          end
      end
  end.

Definition singles (l : list ascii) : list (ascii * ascii) :=
  (λ c, (c, c)) <$> l.

(** The members of the set whose first piece is [c] and whose other pieces
    are [rest]: between two pieces lies the range from the last character of
    the one to the first character of the other, every other character
    stands for itself.  When there is no character before a hyphen, the
    hyphen stands for itself. *)
Fixpoint members (c : list ascii) (rest : list (list ascii))
  : list (ascii * ascii) :=
  match rest with
  | [] => singles c
  | c' :: rest' =>
      match last c, c' with
      | Some lo, hi :: c'' =>
          singles (removelast c) ++ (lo, hi) :: members c'' rest'
      | _, _ => singles c ++ ("-"%char, "-"%char) :: members c' rest'
      end
  end.

(** The item for a set.  The set is negated when, after the empty ranges
    are gone, it starts with ['!']. *)
Definition class_of (stuff : list ascii) : item :=
  let skip :=
    match stuff with
    | c :: _ => if Ascii.eqb c "!" then 2 else 1
    | [] => 1
    end in
  match remove_empty_ranges (close_chunks (split_chunks skip [] stuff)) with
  | [] => Class false []
  | [] :: rest => Class false (members [] rest)
  | (c :: first) :: rest =>
      if Ascii.eqb c "!" then Class true (members first rest)
      else Class false (members (c :: first) rest)
  end.

Fixpoint parse (fuel : nat) (pat : list ascii) : list item :=
  match fuel, pat with
  | O, _ | _, [] => []
  | S fuel', c :: rest =>
      if Ascii.eqb c "*" then Star :: parse fuel' rest
      else if Ascii.eqb c "?" then AnyChar :: parse fuel' rest
      else if Ascii.eqb c "[" then
        match bracket rest with
        | Some (stuff, rest') => class_of stuff :: parse fuel' rest'
        | None => Lit c :: parse fuel' rest
        end
      else Lit c :: parse fuel' rest
  end.

Definition in_range (c : ascii) (r : ascii * ascii) : bool :=
  (N_of_ascii r.1 <=? N_of_ascii c)%N && (N_of_ascii c <=? N_of_ascii r.2)%N.

Definition in_class (negated : bool) (rs : list (ascii * ascii)) (c : ascii)
  : bool :=
  xorb negated (existsb (in_range c) rs).

(** The whole of [s] matches the items [p]. *)
Fixpoint matches (p : list item) (s : list ascii) {struct p} : bool :=
  match p with
  | [] => match s with [] => true | _ => false end
  | Star :: p' =>
      (fix skip (s : list ascii) : bool :=
         matches p' s || match s with [] => false | _ :: s' => skip s' end) s
  | AnyChar :: p' =>
      match s with [] => false | _ :: s' => matches p' s' end
  | Lit c :: p' =>
      match s with [] => false | c' :: s' => Ascii.eqb c c' && matches p' s' end
  | Class neg rs :: p' =>
      match s with [] => false | c' :: s' => in_class neg rs c' && matches p' s' end
  end.

Definition fnmatchcase (name pat : string) : bool :=
  let p := list_ascii_of_string pat in
  matches (parse (length p) p) (list_ascii_of_string name).

(** [os.path.normcase] of [posixpath]. *)
Definition normcase (s : string) : string := s.

Definition fnmatch (name pat : string) : bool :=
  fnmatchcase (normcase name) (normcase pat).

End Fnmatch.

(** ** The glob filter *)

Section Matcher.

(** [fnmatch.fnmatch], as imported by the program. *)
Variable fnmatch : string → string → bool.

(** [class _Matcher]; the closure [_name_matches] captures the glob. *)
Record _Matcher := mk_Matcher {
  negate : bool;
  _name_matches : string → bool
}.

(** [_Matcher.__init__] *)
Definition _Matcher__init__ (glob : string) (case_insensitive : bool)
  : _Matcher :=
  let '(glob, negate) :=
    if PyStr.startswith_bang glob then (PyStr.tail glob, true)
    else (glob, false) in
  if case_insensitive then
    let glob := PyStr.lower glob in
    mk_Matcher negate (λ name, fnmatch name glob)
  else
    mk_Matcher negate (λ name, fnmatch name glob).

(** [_Matcher.__call__] *)
Definition _Matcher__call__ (self : _Matcher) (filename : string) : bool :=
  if _name_matches self filename then negb (negate self) else negate self.

Definition _always_match (_ : string) : bool := true.

End Matcher.

(** ** Paths and the file system *)

Module PyPath.

(** [Path.name]: the text after the last ['/']. *)
Fixpoint name_from (acc s : string) : string :=
  match s with
  | EmptyString => acc
  | String c s' =>
      if Ascii.eqb c "/" then name_from "" s'
      else name_from (acc +:+ String c EmptyString) s'
  end.

Definition name (p : string) : string := name_from "" p.

Fixpoint ends_with_slash (s : string) : bool :=
  match s with
  | EmptyString => false
  | String c EmptyString => Ascii.eqb c "/"
  | String _ s' => ends_with_slash s'
  end.

(** [dir / file] for a single path component [file]. *)
Definition joinpath (dir file : string) : string :=
  if decide (dir = ".") then file
  else if ends_with_slash dir then dir +:+ file
  else dir +:+ "/" +:+ file.

End PyPath.

(** What the program observes of the file system. *)
Record FileSystem := {
  is_file : string → bool;
  is_dir : string → bool;
  (** [Path.walk]: one [(dirpath, dirnames, filenames)] per directory. *)
  walk : string → list (string * list string * list string);
  (** The bytes of a file, or [None] when [open] raises. *)
  content : string → option (list byte)
}.

(** ** CSV rows

    Model of [csv.writer(f).writerow] with the default dialect: fields are
    separated by commas, a field holding a comma, a quote, a carriage return
    or a line feed is quoted with its quotes doubled, and a row ends with
    CR LF.  A row made of one empty field is written as two quotes. *)

Module Csv.

Definition quotechar : ascii := ascii_of_nat 34.

Definition special (c : ascii) : bool :=
  Ascii.eqb c "," || Ascii.eqb c quotechar
  || Ascii.eqb c (ascii_of_nat 13) || Ascii.eqb c (ascii_of_nat 10).

Fixpoint needs_quotes (field : string) : bool :=
  match field with
  | EmptyString => false
  | String c s => special c || needs_quotes s
  end.

Fixpoint double_quotes (field : string) : string :=
  match field with
  | EmptyString => EmptyString
  | String c s =>
      if Ascii.eqb c quotechar then String c (String c (double_quotes s))
      else String c (double_quotes s)
  end.

Definition quoted (field : string) : string :=
  String quotechar (double_quotes field +:+ String quotechar EmptyString).

Definition field_text (field : string) : string :=
  if needs_quotes field then quoted field else field.

Definition writerow (row : list string) : string :=
  match row with
  | [EmptyString] => quoted "" +:+ PyStr.CRLF
  | _ => PyStr.join "," (field_text <$> row) +:+ PyStr.CRLF
  end.

End Csv.

(** ** Collecting, hashing and grouping *)

(** What a call of [_file_hashes] did: the work it submitted to the pool,
    the lines it wrote to the error stream, and the dictionary it returned
    ([None] when an exception left the function). *)
Record hashing_run := {
  submitted : list (string * string);
  err_lines : list string;
  returned : option (PyDict.t (list string))
}.

Inductive output_format := txt | json | csv.

(** The standard output and exit status of a run of [main]. *)
Record outcome := { stdout : string; exit_code : Z }.

Section Program.

(** [fnmatch.fnmatch] *)
Variable fnmatch : string → string → bool.
(** The order in which [for path in set(paths)] visits the distinct roots. *)
Variable set_order : list string → list string.
Variable fs : FileSystem.
(** [hashlib.new(name)]: [None] when the call raises; otherwise the digest
    object, as the map from the bytes fed to it by [update] to the result of
    [hexdigest()], which is [None] when [hexdigest()] raises (it requires a
    length for the algorithms [shake_128] and [shake_256]). *)
Variable hashlib_new : string → option (list byte → option string).
(** [concurrent.futures.as_completed]: the futures in completion order. *)
Variable as_completed : list (option _HashResult) → list (option _HashResult).
(** [click.style(text, fg=..., bold=...)] as [click.echo] prints it. *)
Variable click_style : string → string → bool → string.
(** The JSON string literal of a [str], as [json.dumps] writes it. *)
Variable json_str : string → string.

(** The paths that the walk of a root lists: [subdir / name] for every
    name of every visited directory (line 220, over the loop of line 219). *)
Definition walk_files (root : string) : list string :=
  '(subdir, _, filenames) ← walk fs root;
  PyPath.joinpath subdir <$> filenames.

(** The body of the loop of [_collect_file_paths]: what one root yields. *)
Definition collect_root (name_ok : string → bool) (recursive : bool)
    (glob : option string) (path : string) : list string :=
  if is_file fs path then
    if name_ok (PyPath.name path) then [path] else []
  else if recursive && is_dir fs path then
    '(subdir, _, filenames) ← walk fs path;
    let file_paths := PyPath.joinpath subdir <$> filenames in
    match glob with
    | None => file_paths
    | Some _ => filter (λ p, name_ok (PyPath.name p)) file_paths
    end
  else [].

(** The filter chosen at the start of [_collect_file_paths]. *)
Definition filename_match (glob : option string) (glob_case_insensitive : bool)
  : string → bool :=
  match glob with
  | None => _always_match
  | Some g => _Matcher__call__ (_Matcher__init__ fnmatch g glob_case_insensitive)
  end.

(** [_collect_file_paths]; the generator is modelled by the list of the
    paths it yields, in order. *)
Definition _collect_file_paths (paths : list string) (recursive : bool)
    (glob : option string) (glob_case_insensitive : bool) : list string :=
  path ← set_order paths;
  collect_root (filename_match glob glob_case_insensitive) recursive glob path.

(** The [while True] loop of [_compute_hash]: [f] is what is left of the
    file, [acc] what the digest object has been fed. *)
Fixpoint read_loop (fuel blocksize : nat) (f acc : list byte)
  : option (list byte) :=
  match fuel with
  | O => None
  | S fuel' =>
      let data := take blocksize f in
      match data with
      | [] => Some acc
      | _ => read_loop fuel' blocksize (drop blocksize f) (acc ++ data)
      end
  end.

Definition default_blocksize : nat := Z.to_nat 0xFFFF.

(** [_compute_hash]; [None] when the call raises, which it does at
    [hashlib.new], at [open] or at [digest.hexdigest()]. *)
Definition _compute_hash (path hash_algorithm : string) (blocksize : nat)
  : option _HashResult :=
  hexdigest ← hashlib_new hash_algorithm;
  f ← content fs path;
  data ← read_loop (S (length f)) blocksize f [];
  hex ← hexdigest data;
  Some (mk_HashResult path hex).

(** [_file_hashes].  The progress bar only wraps the iterator and is left
    out.  The loop raises at the first failed future, so the call returns
    only if every future has a result. *)
Definition _file_hashes (hash_algorithm : string) (paths : list string)
    (show_progress : bool) : hashing_run :=
  let jobs := (λ path, (path, hash_algorithm)) <$> paths in
  let futures := (λ job, _compute_hash job.1 job.2 default_blocksize) <$> jobs in
  match futures with
  | [] => {| submitted := jobs;
             err_lines := ["Warning: no files passed"];
             returned := Some [] |}
  | _ => {| submitted := jobs;
            err_lines := [];
            returned := aggregate <$> mapM id (as_completed futures) |}
  end.

(** *** Rendering *)

(** [click.echo(line)] *)
Definition echo (line : string) : string := line +:+ PyStr.LF.

Definition _echo_matched_digests (file_hashes : PyDict.t (list string))
  : string :=
  String.concat ""
    ('(digest, paths) ← file_hashes;
     path ← paths;
     [echo (click_style digest "red" false +:+ click_style ":" "green" false
            +:+ path)]).

Definition _echo_duplicate_files (identical : PyDict.t (list string))
    (hash_algorithm : string) : string :=
  String.concat ""
    ('(digest, paths) ← identical;
     [echo (click_style
              (pretty (length paths) +:+ " files with " +:+ hash_algorithm
               +:+ " hash '" +:+ digest +:+ "':") "yellow" true);
      echo (PyStr.join PyStr.LF paths)]).

(** [json.dumps(file_hashes, indent=2)] on a dictionary of lists of
    strings. *)
Definition json_array (paths : list string) : string :=
  match paths with
  | [] => "[]"
  | _ => "[" +:+ PyStr.LF
         +:+ PyStr.join ("," +:+ PyStr.LF) ((λ p, "    " +:+ json_str p) <$> paths)
         +:+ PyStr.LF +:+ "  ]"
  end.

Definition json_dumps (file_hashes : PyDict.t (list string)) : string :=
  match file_hashes with
  | [] => "{}"
  | _ => "{" +:+ PyStr.LF
         +:+ PyStr.join ("," +:+ PyStr.LF)
               ((λ dp, "  " +:+ json_str dp.1 +:+ ": " +:+ json_array dp.2)
                  <$> file_hashes)
         +:+ PyStr.LF +:+ "}"
  end.

Definition _write_csv (identical : PyDict.t (list string))
    (hash_algorithm : string) : string :=
  Csv.writerow [hash_algorithm; "path"]
  +:+ String.concat ""
        ('(digest, files) ← identical;
         file ← files;
         [Csv.writerow [digest; file]]).

(** *** [main] *)

(** Lines 113-121: the groups that are reported. *)
Definition main_filter (match_digests : list string)
    (file_hashes : PyDict.t (list string)) : PyDict.t (list string) :=
  match match_digests with
  | _ :: _ =>
      let to_match : gset string := list_to_set match_digests in
      PyDict.comprehension (filter (λ dp, dp.1 ∈ to_match) file_hashes)
  | [] =>
      PyDict.comprehension (filter (λ dp, 1 < length dp.2) file_hashes)
  end.

(** Lines 126-136: what is printed when [--quiet] is not given. *)
Definition main_render (output_format : output_format)
    (hash_algorithm : string) (match_digests : list string)
    (file_hashes : PyDict.t (list string)) : string :=
  match output_format with
  | txt =>
      match match_digests with
      | _ :: _ => _echo_matched_digests file_hashes
      | [] => _echo_duplicate_files file_hashes hash_algorithm
      end
  | json => json_dumps file_hashes +:+ PyStr.LF
  | csv => _write_csv file_hashes hash_algorithm
  end.

(** Lines 123-139, on the retained groups: [sys.exit(n)] ends the run
    with status [n], returning from [main] ends it with status 0. *)
Definition main_report (quiet : bool) (output_format : output_format)
    (hash_algorithm : string) (match_digests : list string)
    (file_hashes : PyDict.t (list string)) : outcome :=
  if quiet then
    {| stdout := ""; exit_code := if PyDict.truthy file_hashes then 0 else 1 |}
  else
    let out := main_render output_format hash_algorithm match_digests file_hashes in
    match match_digests with
    | _ :: _ =>
        if PyDict.truthy file_hashes then {| stdout := out; exit_code := 0 |}
        else {| stdout := out; exit_code := 1 |}
    | [] => {| stdout := out; exit_code := 0 |}
    end.

(** [main]: the hashing run and, unless an exception escaped from it, the
    outcome of the report. *)
Definition main (paths : list string) (jobs : option nat) (quiet : bool)
    (output_format : output_format) (hash_algorithm : string)
    (match_digests : list string) (show_progress recursive : bool)
    (glob : option string) (glob_case_insensitive : bool)
  : hashing_run * option outcome :=
  let show_progress := if quiet then false else show_progress in
  let run :=
    _file_hashes hash_algorithm
      (_collect_file_paths paths recursive glob glob_case_insensitive)
      show_progress in
  (run,
   file_hashes ← returned run;
   Some (main_report quiet output_format hash_algorithm match_digests
           (main_filter match_digests file_hashes))).

End Program.

(** ** Concrete collaborators, for running the model *)

(** [set_order]: the distinct roots, each at the place of its last
    occurrence. *)
Definition last_occurrence_order (paths : list string) : list string :=
  remove_dups paths.

(** [hashlib_new]: the algorithm [md5], whose [hexdigest()] always returns;
    the other algorithms of [hashlib] are not modelled. *)
Definition hashlib_md5 (name : string) : option (list byte → option string) :=
  if decide (name = "md5") then Some (λ data, Some (MD5.hexdigest data))
  else None.

(** [hashlib_new] with the variable-length algorithms as well: [hashlib.new]
    accepts [shake_128] and [shake_256], and their [hexdigest()] raises
    because it is called without a length. *)
Definition hashlib_md5_shake (name : string)
  : option (list byte → option string) :=
  if decide (name ∈ ["shake_128"; "shake_256"]) then Some (λ _, None)
  else hashlib_md5 name.

(** [as_completed]: the workers finish in submission order. *)
Definition in_submission_order (futures : list (option _HashResult))
  : list (option _HashResult) := futures.

(** [click_style]: the text itself, as printed when standard output is not a
  terminal. *)
Definition plain_style (text fg : string) (bold : bool) : string := text.

(** [json_str] for strings that need no escaping. *)
Definition json_plain (s : string) : string :=
  String Csv.quotechar (s +:+ String Csv.quotechar EmptyString).

(** A directory [d] that holds the single file [a.txt]. *)
Definition fs_one_dir : FileSystem := {|
  is_file p := bool_decide (p = "d/a.txt");
  is_dir p := bool_decide (p = "d");
  walk p := if decide (p = "d") then [("d", [], ["a.txt"])] else [];
  content p :=
    if decide (p = "d/a.txt") then Some (list_byte_of_string "hello") else None
|}.

(** Scenario A: the files [a.txt] and [b.txt], both holding [hello]. *)
Definition fs_scenario_a : FileSystem := {|
  is_file p := bool_decide (p ∈ ["a.txt"; "b.txt"]);
  is_dir p := false;
  walk p := [];
  content p :=
    if decide (p ∈ ["a.txt"; "b.txt"]) then Some (list_byte_of_string "hello")
    else None
|}.

(** A directory [d] that holds [a.txt] and [b.txt], next to the file
    [c.txt]. *)
Definition fs_dir_and_file : FileSystem := {|
  is_file p := bool_decide (p ∈ ["d/a.txt"; "d/b.txt"; "c.txt"]);
  is_dir p := bool_decide (p = "d");
  walk p := if decide (p = "d") then [("d", [], ["a.txt"; "b.txt"])] else [];
  content p :=
    if decide (p ∈ ["d/a.txt"; "d/b.txt"; "c.txt"])
    then Some (list_byte_of_string p) else None
|}.

(** * Properties *)

(** ** Test vectors for the MD5 model *)

Example md5_empty : MD5.hexdigest [] = "d41d8cd98f00b204e9800998ecf8427e".
Proof. vm_compute. reflexivity. Qed.

Example md5_fox :
  MD5.hexdigest (list_byte_of_string "The quick brown fox jumps over the lazy dog")
  = "9e107d9d372bb6826bd81d3542a419d6".
Proof. vm_compute. reflexivity. Qed.

Example md5_two_blocks :
  MD5.hexdigest (replicate 100 "a"%byte) = "36a92cc94a9e0fa21f625f8bfb007adf".
Proof. vm_compute. reflexivity. Qed.

(** ** Dictionaries *)

Section dict_facts.
Context {V : Type}.
Implicit Types (d : PyDict.t V) (k : string) (v : V).

Lemma get_None d k : PyDict.get d k = None ↔ k ∉ PyDict.keys d.
Proof.
  unfold PyDict.keys. induction d as [|[k' v'] d IH]; simpl.
  - split; [intros _; apply not_elem_of_nil | done].
  - rewrite not_elem_of_cons. case_decide; subst.
    + split; [done | intros [? _]; done].
    + rewrite IH. split; [auto | by intros [_ ?]].
Qed.

Lemma get_Some_elem_of d k v : PyDict.get d k = Some v → (k, v) ∈ d.
Proof.
  induction d as [|[k' v'] d IH]; simpl; [done|].
  case_decide; subst.
  - intros [= ->]. apply list_elem_of_here.
  - intros ?. apply list_elem_of_further. auto.
Qed.

Lemma elem_of_get d k v : PyDict.wf d → (k, v) ∈ d → PyDict.get d k = Some v.
Proof.
  unfold PyDict.wf, PyDict.keys.
  induction d as [|[k' v'] d IH]; simpl; [by intros _ ?%elem_of_nil|].
  rewrite NoDup_cons. intros [Hk Hd] [[= -> ->]|Hin]%elem_of_cons.
  - by rewrite decide_True.
  - rewrite decide_False; [auto|]. intros ->. apply Hk.
    apply list_elem_of_fmap. by exists (k, v).
Qed.

Lemma get_app d1 d2 k :
  PyDict.get (d1 ++ d2) k
  = match PyDict.get d1 k with Some v => Some v | None => PyDict.get d2 k end.
Proof.
  induction d1 as [|[k' v'] d1 IH]; simpl; [done|]. by case_decide.
Qed.

Lemma set_fresh d k v : k ∉ PyDict.keys d → PyDict.set k v d = d ++ [(k, v)].
Proof.
  unfold PyDict.keys. induction d as [|[k' v'] d IH]; simpl; [done|].
  rewrite not_elem_of_cons. intros [Hne Hk].
  rewrite decide_False by done. by rewrite IH.
Qed.

(** A comprehension over pairs with distinct keys is the list of pairs. *)
Lemma comprehension_NoDup (kvs : list (string * V)) :
  NoDup kvs.*1 → PyDict.comprehension kvs = kvs.
Proof.
  unfold PyDict.comprehension.
  enough (∀ acc, NoDup (acc ++ kvs).*1 →
            foldl (λ acc kv, PyDict.set kv.1 kv.2 acc) acc kvs = acc ++ kvs)
    as H by (intros; by apply (H [])).
  induction kvs as [|[k v] kvs IH]; intros acc Hnd; simpl.
  - by rewrite app_nil_r.
  - rewrite set_fresh.
    + rewrite IH; rewrite <-app_assoc; done.
    + rewrite fmap_app in Hnd. apply NoDup_app in Hnd as (_ & Hdisj & _).
      intros Hin. apply (Hdisj _ Hin). simpl. apply list_elem_of_here.
Qed.

Lemma keys_alter (f : V → V) k d :
  PyDict.keys (PyDict.alter f k d) = PyDict.keys d.
Proof.
  unfold PyDict.keys. induction d as [|[k' v'] d IH]; simpl; [done|].
  case_decide; simpl; [done|]. f_equal. apply IH.
Qed.

Lemma get_alter (f : V → V) k d k' :
  PyDict.get (PyDict.alter f k d) k'
  = if decide (k = k') then f <$> PyDict.get d k' else PyDict.get d k'.
Proof.
  induction d as [|[k0 v0] d IH]; simpl; [by case_decide|].
  destruct (decide (k0 = k)) as [->|Hne]; simpl.
  - by destruct (decide (k = k')).
  - destruct (decide (k0 = k')) as [->|]; simpl; [|apply IH].
    by rewrite decide_False by done.
Qed.

Lemma keys_setdefault k v d :
  PyDict.keys (PyDict.setdefault k v d)
  = PyDict.keys d ++ (if decide (k ∈ PyDict.keys d) then [] else [k]).
Proof.
  unfold PyDict.setdefault. destruct (PyDict.get d k) eqn:Hg.
  - rewrite decide_True; [by rewrite app_nil_r|].
    destruct (decide (k ∈ PyDict.keys d)) as [|Hn]; [done|].
    apply get_None in Hn. congruence.
  - apply get_None in Hg. rewrite decide_False by done.
    unfold PyDict.keys. by rewrite fmap_app.
Qed.

Lemma get_setdefault k v d k' :
  PyDict.get (PyDict.setdefault k v d) k'
  = match PyDict.get d k' with
    | Some w => Some w
    | None => if decide (k = k') then Some v else None
    end.
Proof.
  unfold PyDict.setdefault. destruct (PyDict.get d k) eqn:Hg.
  - destruct (PyDict.get d k') eqn:Hg'; [done|].
    case_decide; [congruence | done].
  - rewrite get_app. simpl. destruct (PyDict.get d k'); [done|].
    by case_decide.
Qed.

End dict_facts.

(** ** Sorting *)

Lemma sorted_Sorted l : Sorted String.le (sorted l).
Proof. apply (Sorted_merge_sort String.le). Qed.

Lemma sorted_Permutation l : sorted l ≡ₚ l.
Proof. apply merge_sort_Permutation. Qed.

Lemma sorted_perm_eq l1 l2 : l1 ≡ₚ l2 → sorted l1 = sorted l2.
Proof.
  intros Hp. apply (Sorted_unique String.le); try apply sorted_Sorted.
  by rewrite !sorted_Permutation.
Qed.

Lemma sorted_nil_inv l : sorted l = [] → l = [].
Proof.
  intros H. apply Permutation_nil_r. rewrite <-H. symmetry.
  apply sorted_Permutation.
Qed.

(** ** The aggregation loop *)

Lemma keys_consume hashes res :
  PyDict.keys (consume hashes res)
  = PyDict.keys hashes
    ++ (if decide (digest res ∈ PyDict.keys hashes) then [] else [digest res]).
Proof. unfold consume. by rewrite keys_alter, keys_setdefault. Qed.

Lemma get_consume hashes res d :
  PyDict.get (consume hashes res) d
  = if decide (digest res = d)
    then Some (default [] (PyDict.get hashes d) ++ [path res])
    else PyDict.get hashes d.
Proof.
  unfold consume. rewrite get_alter, get_setdefault.
  destruct (decide (digest res = d)) as [Heq|Hne].
  - subst d. by destruct (PyDict.get hashes _).
  - by destruct (PyDict.get hashes d).
Qed.

Lemma wf_consume hashes res : PyDict.wf hashes → PyDict.wf (consume hashes res).
Proof.
  unfold PyDict.wf. rewrite keys_consume. intros Hwf.
  case_decide; [by rewrite app_nil_r|].
  apply NoDup_app. split_and!; [done| |apply NoDup_singleton].
  intros k Hk Hk'%list_elem_of_singleton. by subst.
Qed.

Lemma wf_foldl_consume hashes rs :
  PyDict.wf hashes → PyDict.wf (foldl consume hashes rs).
Proof.
  revert hashes. induction rs as [|r rs IH]; simpl; [done|].
  intros hashes Hwf. by apply IH, wf_consume.
Qed.

Lemma wf_accumulate rs : PyDict.wf (accumulate rs).
Proof. apply wf_foldl_consume, NoDup_nil_2. Qed.

Lemma get_foldl_consume hashes rs d :
  PyDict.get (foldl consume hashes rs) d
  = match paths_with d rs with
    | [] => PyDict.get hashes d
    | ps => Some (default [] (PyDict.get hashes d) ++ ps)
    end.
Proof.
  unfold paths_with. revert hashes.
  induction rs as [|r rs IH]; intros hashes; simpl; [done|].
  rewrite IH, get_consume, filter_cons.
  destruct (decide (digest r = d)) as [Heq|Hne]; [|done].
  rewrite fmap_cons. destruct (path <$> filter _ rs); [done|].
  simpl. by rewrite <-app_assoc.
Qed.

Lemma keys_foldl_consume hashes rs d :
  d ∈ PyDict.keys (foldl consume hashes rs)
  ↔ d ∈ PyDict.keys hashes ∨ d ∈ digest <$> rs.
Proof.
  revert hashes. induction rs as [|r rs IH]; intros hashes; simpl.
  - rewrite elem_of_nil. tauto.
  - rewrite IH, keys_consume, elem_of_app, elem_of_cons.
    case_decide; [rewrite elem_of_nil|rewrite list_elem_of_singleton];
      intuition (subst; auto).
Qed.

Lemma finalize_wf hashes :
  PyDict.wf hashes → finalize hashes = (λ dp, (dp.1, sorted dp.2)) <$> hashes.
Proof.
  intros Hwf. unfold finalize. apply comprehension_NoDup.
  by rewrite <-list_fmap_compose.
Qed.

Lemma get_fmap_values {V W} (f : V → W) (d : PyDict.t V) k :
  PyDict.get ((λ kv, (kv.1, f kv.2)) <$> d) k = f <$> PyDict.get d k.
Proof.
  induction d as [|[k' v'] d IH]; simpl; [done|]. by case_decide.
Qed.

Lemma aggregate_fmap rs :
  aggregate rs = (λ dp, (dp.1, sorted dp.2)) <$> accumulate rs.
Proof. apply finalize_wf, wf_accumulate. Qed.

Lemma wf_aggregate rs : PyDict.wf (aggregate rs).
Proof.
  rewrite aggregate_fmap. unfold PyDict.wf, PyDict.keys.
  rewrite <-list_fmap_compose. apply wf_accumulate.
Qed.

Lemma get_aggregate rs d :
  PyDict.get (aggregate rs) d
  = match paths_with d rs with
    | [] => None
    | ps => Some (sorted ps)
    end.
Proof.
  rewrite aggregate_fmap, get_fmap_values. unfold accumulate.
  rewrite get_foldl_consume. simpl. by destruct (paths_with d rs).
Qed.

Lemma paths_with_Permutation d rs rs' :
  rs ≡ₚ rs' → paths_with d rs ≡ₚ paths_with d rs'.
Proof. unfold paths_with. by intros ->. Qed.

(** Every group of the loop state is non-empty. *)
Lemma accumulate_nonempty rs : Forall (λ dp, dp.2 ≠ []) (accumulate rs).
Proof.
  apply Forall_forall. intros [d ps] Hin%elem_of_get; [|apply wf_accumulate].
  unfold accumulate in Hin. rewrite get_foldl_consume in Hin. simpl in *.
  destruct (paths_with d rs); simplify_eq/=. done.
Qed.

(** ** Aggregation: order independence (C3) and non-empty groups (C8) *)

(** Permuted sequences of results give every digest the same group. *)
Lemma aggregate_get_Permutation (rs rs' : list _HashResult) (d : string) :
  rs ≡ₚ rs' → PyDict.get (aggregate rs) d = PyDict.get (aggregate rs') d.
Proof.
  intros Hperm. rewrite !get_aggregate.
  pose proof (paths_with_Permutation d _ _ Hperm) as Hp.
  pose proof (sorted_perm_eq _ _ Hp) as Hs.
  destruct (paths_with d rs) as [|p ps], (paths_with d rs') as [|p' ps'];
    [done| | |by rewrite Hs].
  - by apply Permutation_nil_cons in Hp.
  - symmetry in Hp. by apply Permutation_nil_cons in Hp.
Qed.

(** C3.  Aggregation does not depend on the completion order once the
    groups are finalized: for a sequence of hash results [rs] and any
    permutation [rs'] of it, both aggregates are dictionaries that map every
    digest [d] to the same path list, and that list is the lexicographically
    sorted arrangement of all the paths paired with [d] in the input (no
    entry when there is none). *)
Theorem C3_aggregate_completion_order_independent
    (rs rs' : list _HashResult) (d : string) :
  rs ≡ₚ rs' →
  PyDict.wf (aggregate rs) ∧ PyDict.wf (aggregate rs')
  ∧ PyDict.get (aggregate rs) d = PyDict.get (aggregate rs') d
  ∧ PyDict.get (aggregate rs) d
    = match paths_with d rs with
      | [] => None
      | ps => Some (sorted ps)
      end
  ∧ Sorted String.le (sorted (paths_with d rs))
  ∧ sorted (paths_with d rs) ≡ₚ paths_with d rs.
Proof.
  intros Hperm. split_and!.
  - apply wf_aggregate.
  - apply wf_aggregate.
  - by apply aggregate_get_Permutation.
  - by rewrite get_aggregate.
  - apply sorted_Sorted.
  - apply sorted_Permutation.
Qed.

Lemma C3_witness :
  PyDict.get
    (aggregate [mk_HashResult "b.txt" "x"; mk_HashResult "c.txt" "y";
                mk_HashResult "a.txt" "x"]) "x"
  = PyDict.get
      (aggregate [mk_HashResult "a.txt" "x"; mk_HashResult "b.txt" "x";
                  mk_HashResult "c.txt" "y"]) "x".
Proof.
  refine (proj1 (proj2 (proj2
    (C3_aggregate_completion_order_independent
       [mk_HashResult "b.txt" "x"; mk_HashResult "c.txt" "y";
        mk_HashResult "a.txt" "x"]
       [mk_HashResult "a.txt" "x"; mk_HashResult "b.txt" "x";
        mk_HashResult "c.txt" "y"] "x" _)))).
  etrans; [apply perm_skip, perm_swap|]. etrans; [apply perm_swap|].
  apply perm_skip. reflexivity.
Defined.

Example aggregate_sorts_groups :
  aggregate [mk_HashResult "b.txt" "x"; mk_HashResult "c.txt" "y";
             mk_HashResult "a.txt" "x"]
  = [("x", ["a.txt"; "b.txt"]); ("y", ["c.txt"])].
Proof. vm_compute. reflexivity. Qed.

(** C8.  Groups are never empty.  After the loop of [_file_hashes] has
    consumed any number [n] of results, every digest of [hashes] maps to a
    non-empty path list, and so does every digest of the returned
    dictionary.  Consuming the next result [res] leaves the existing keys in
    place, adds the key [digest res] exactly when no earlier result carried
    that digest, and in the same step puts [path res] at the end of that
    digest's list. *)
Theorem C8_groups_never_empty (completed : list _HashResult) (n : nat) :
  let hashes := accumulate (take n completed) in
  Forall (λ dp, dp.2 ≠ []) hashes
  ∧ Forall (λ dp, dp.2 ≠ []) (aggregate completed)
  ∧ ∀ res, completed !! n = Some res →
      accumulate (take (S n) completed) = consume hashes res
      ∧ (digest res ∈ PyDict.keys hashes
         ↔ digest res ∈ digest <$> take n completed)
      ∧ PyDict.keys (consume hashes res)
        = PyDict.keys hashes
          ++ (if decide (digest res ∈ PyDict.keys hashes) then []
              else [digest res])
      ∧ PyDict.get (consume hashes res) (digest res)
        = Some (default [] (PyDict.get hashes (digest res)) ++ [path res]).
Proof.
  intros hashes. split_and!.
  - apply accumulate_nonempty.
  - rewrite aggregate_fmap. apply Forall_fmap.
    eapply Forall_impl; [apply accumulate_nonempty|].
    intros [d ps] Hne Hs. simpl in *. by apply sorted_nil_inv in Hs.
  - intros res Hres. split_and!.
    + rewrite (take_S_r _ _ _ Hres). unfold accumulate. by rewrite foldl_app.
    + unfold hashes, accumulate. rewrite keys_foldl_consume.
      unfold PyDict.keys. simpl. rewrite elem_of_nil. tauto.
    + apply keys_consume.
    + rewrite get_consume. by rewrite decide_True.
Qed.

(** ** Filtering the groups (C2) *)

Lemma wf_filter {V} (P : string * V → Prop) `{!∀ x, Decision (P x)}
    (d : PyDict.t V) :
  PyDict.wf d → PyDict.wf (filter P d).
Proof.
  unfold PyDict.wf, PyDict.keys.
  induction d as [|[k v] d IH]; [done|].
  rewrite fmap_cons, NoDup_cons. intros [Hk Hd]. rewrite filter_cons.
  case_decide; [|auto]. rewrite fmap_cons, NoDup_cons. split; [|auto].
  intros [[k' v'] [Heq Hin%list_elem_of_filter]]%list_elem_of_fmap.
  simpl in Heq. subst k'. apply Hk. apply list_elem_of_fmap.
  exists (k, v'). tauto.
Qed.

Lemma get_filter {V} (P : string * V → Prop) `{!∀ x, Decision (P x)}
    (d : PyDict.t V) k v :
  PyDict.wf d →
  PyDict.get (filter P d) k = Some v ↔ PyDict.get d k = Some v ∧ P (k, v).
Proof.
  intros Hwf. split.
  - intros [HP Hin]%get_Some_elem_of%list_elem_of_filter.
    split; [by apply elem_of_get | done].
  - intros [Hin%get_Some_elem_of HP].
    apply elem_of_get; [by apply wf_filter|]. by apply list_elem_of_filter.
Qed.

Lemma main_filter_duplicates groups :
  PyDict.wf groups →
  main_filter [] groups = filter (λ dp, 1 < length dp.2) groups.
Proof. intros Hwf. apply comprehension_NoDup, wf_filter, Hwf. Qed.

Lemma main_filter_match m ms groups :
  PyDict.wf groups →
  main_filter (m :: ms) groups = filter (λ dp, dp.1 ∈ m :: ms) groups.
Proof.
  intros Hwf. unfold main_filter.
  rewrite comprehension_NoDup by apply wf_filter, Hwf.
  apply list_filter_iff. intros [d ps]. apply elem_of_list_to_set.
Qed.

(** C2.  Group filtering.  For every dictionary of groups, without target
    digests (duplicates mode) the retained dictionary consists of exactly
    the groups with more than one path, and with one or more target digests
    (match mode) of exactly the groups whose digest is one of the targets,
    whatever their size; the retained groups keep their order and their
    path lists. *)
Theorem C2_group_filtering (match_digests : list string)
    (groups : PyDict.t (list string)) (d : string) (ps : list string) :
  PyDict.wf groups →
  PyDict.wf (main_filter match_digests groups)
  ∧ match match_digests with
    | [] =>
        main_filter match_digests groups
        = filter (λ dp, 1 < length dp.2) groups
        ∧ (PyDict.get (main_filter match_digests groups) d = Some ps
           ↔ PyDict.get groups d = Some ps ∧ 1 < length ps)
    | _ :: _ =>
        main_filter match_digests groups
        = filter (λ dp, dp.1 ∈ match_digests) groups
        ∧ (PyDict.get (main_filter match_digests groups) d = Some ps
           ↔ PyDict.get groups d = Some ps ∧ d ∈ match_digests)
    end.
Proof.
  intros Hwf. destruct match_digests as [|m ms].
  - rewrite main_filter_duplicates by done.
    split_and!; [by apply wf_filter|done|]. by rewrite get_filter.
  - rewrite main_filter_match by done.
    split_and!; [by apply wf_filter|done|]. by rewrite get_filter.
Qed.

Lemma C2_witness :
  PyDict.get
    (main_filter ["x"] [("x", ["only.txt"]); ("y", ["a.txt"; "b.txt"])]) "x"
  = Some ["only.txt"]
  ↔ PyDict.get [("x", ["only.txt"]); ("y", ["a.txt"; "b.txt"])] "x"
    = Some ["only.txt"]
    ∧ "x" ∈ ["x"].
Proof.
  refine (proj2 (proj2
    (C2_group_filtering ["x"] [("x", ["only.txt"]); ("y", ["a.txt"; "b.txt"])]
       "x" ["only.txt"] _))).
  unfold PyDict.wf. simpl. apply NoDup_cons. split.
  - intros H%list_elem_of_singleton. discriminate H.
  - apply NoDup_singleton.
Defined.

Example main_filter_match_keeps_single :
  main_filter ["x"] [("x", ["only.txt"]); ("y", ["a.txt"; "b.txt"])]
  = [("x", ["only.txt"])].
Proof. vm_compute. reflexivity. Qed.

Example main_filter_duplicates_drops_single :
  main_filter [] [("x", ["only.txt"]); ("y", ["a.txt"; "b.txt"])]
  = [("y", ["a.txt"; "b.txt"])].
Proof. vm_compute. reflexivity. Qed.

(** ** Exit status (C1) and the CSV header (C10) *)

Section report_facts.
Variable click_style : string → string → bool → string.
Variable json_str : string → string.

(** C1.  Exit status of the report.  With [--quiet] nothing is printed and
    the status is 0 when the retained dictionary is non-empty and 1 when it
    is empty.  Without [--quiet] the retained dictionary is rendered; the
    status is 1 when target digests were given and nothing was retained,
    and 0 in every other case. *)
Theorem C1_exit_code_contract (quiet : bool) (fmt : output_format)
    (hash_algorithm : string) (match_digests : list string)
    (retained : PyDict.t (list string)) :
  main_report click_style json_str quiet fmt hash_algorithm match_digests
    retained
  = match quiet, match_digests, retained with
    | true, _, _ :: _ => {| stdout := ""; exit_code := 0 |}
    | true, _, [] => {| stdout := ""; exit_code := 1 |}
    | false, _ :: _, [] =>
        {| stdout := main_render click_style json_str fmt hash_algorithm
                       match_digests [];
           exit_code := 1 |}
    | false, _, _ =>
        {| stdout := main_render click_style json_str fmt hash_algorithm
                       match_digests retained;
           exit_code := 0 |}
    end.
Proof.
  unfold main_report.
  destruct quiet, match_digests as [|m ms], retained as [|g gs]; reflexivity.
Qed.

Lemma string_app_assoc (a b c : string) : (a +:+ b) +:+ c = a +:+ b +:+ c.
Proof.
  induction a as [|x a IH]; [done|].
  change (String x ((a +:+ b) +:+ c) = String x (a +:+ b +:+ c)).
  by rewrite IH.
Qed.

Lemma writerow_header hash_algorithm :
  Csv.needs_quotes hash_algorithm = false →
  Csv.writerow [hash_algorithm; "path"]
  = hash_algorithm +:+ ",path" +:+ PyStr.CRLF.
Proof.
  intros Hq. unfold Csv.writerow, Csv.field_text.
  assert (field_text_alg :
    Csv.field_text <$> [hash_algorithm; "path"] = [hash_algorithm; "path"]).
  { simpl. unfold Csv.field_text. by rewrite Hq. }
  destruct hash_algorithm as [|c s].
  - reflexivity.
  - fold Csv.field_text. rewrite field_text_alg.
    unfold PyStr.join. by rewrite string_app_assoc.
Qed.

(** C10.  The CSV rendering always starts with the header row.  For an
    algorithm name that needs no quoting, the output for any retained
    dictionary is the row [<algorithm>,path] followed by one row per
    (digest, path) pair; for the empty dictionary, as in a match-mode run
    without matches, the output is that header row alone and not the empty
    string, and the exit status is 1. *)
Theorem C10_csv_header_always (hash_algorithm : string)
    (retained : PyDict.t (list string)) (m : string) (ms : list string) :
  Csv.needs_quotes hash_algorithm = false →
  let header := hash_algorithm +:+ ",path" +:+ PyStr.CRLF in
  let pairs := '(digest, files) ← retained; file ← files; [(digest, file)] in
  _write_csv retained hash_algorithm
  = header +:+ String.concat "" ((λ dp, Csv.writerow [dp.1; dp.2]) <$> pairs)
  ∧ _write_csv [] hash_algorithm = header
  ∧ header ≠ ""
  ∧ main_report click_style json_str false csv hash_algorithm (m :: ms) []
    = {| stdout := header; exit_code := 1 |}.
Proof.
  intros Hq header pairs.
  assert (Hempty : _write_csv [] hash_algorithm = header).
  { unfold _write_csv. rewrite writerow_header by done. simpl.
    unfold header. by rewrite !string_app_assoc. }
  split_and!.
  - unfold _write_csv. rewrite writerow_header by done. fold header.
    f_equal. f_equal. unfold pairs.
    induction retained as [|[d fs] gs IH]; [done|].
    rewrite !bind_cons, fmap_app, IH. f_equal.
    clear. induction fs as [|f fs IH]; [done|].
    rewrite !bind_cons, fmap_app, IH. done.
  - done.
  - unfold header. destruct hash_algorithm; discriminate.
  - unfold main_report, main_render. simpl PyDict.truthy. cbv iota.
    by rewrite Hempty.
Qed.

End report_facts.

Lemma C10_witness :
  _write_csv [] "md5" = "md5,path" +:+ PyStr.CRLF.
Proof.
  refine (proj1 (proj2
    (C10_csv_header_always plain_style json_plain "md5" [] "abc123" [] _))).
  reflexivity.
Defined.

Example csv_duplicate_pair :
  _write_csv [("5d41402abc4b2a76b9719d911017c592", ["a.txt"; "b.txt"])] "md5"
  = "md5,path" +:+ PyStr.CRLF
    +:+ "5d41402abc4b2a76b9719d911017c592,a.txt" +:+ PyStr.CRLF
    +:+ "5d41402abc4b2a76b9719d911017c592,b.txt" +:+ PyStr.CRLF.
Proof. vm_compute. reflexivity. Qed.

(** ** The glob filter (C4, C5) *)

Example fnmatch_samples :
  Fnmatch.fnmatch "notes.txt" "*.txt" = true
  ∧ Fnmatch.fnmatch "notes.txt" "*.TXT" = false
  ∧ Fnmatch.fnmatch "a1.c" "a?.[ch]" = true
  ∧ Fnmatch.fnmatch "a1.o" "a?.[!ch]" = true
  ∧ Fnmatch.fnmatch "x-y" "x[a--]y" = false
  ∧ Fnmatch.fnmatch "x[y" "x[y" = true
  ∧ Fnmatch.fnmatch "b" "[a-c-e]" = true
  ∧ Fnmatch.fnmatch "d" "[a-c-e]" = false
  ∧ Fnmatch.fnmatch "c" "[b-a!c]" = false
  ∧ Fnmatch.fnmatch "d" "[b-a!c]" = true
  ∧ Fnmatch.fnmatch "-" "[b-a!-z]" = false.
Proof. vm_compute. tauto. Qed.

Section matcher_facts.
Variable fnmatch : string → string → bool.

Lemma lower_tail s : PyStr.lower (PyStr.tail s) = PyStr.tail (PyStr.lower s).
Proof. by destruct s. Qed.

Lemma lower_ascii_bang c :
  Ascii.eqb (PyStr.lower_ascii c) "!" = Ascii.eqb c "!".
Proof.
  destruct c as [[] [] [] [] [] [] [] []]; vm_compute; reflexivity.
Qed.

Lemma startswith_bang_lower s :
  PyStr.startswith_bang (PyStr.lower s) = PyStr.startswith_bang s.
Proof. destruct s; [done|]. apply lower_ascii_bang. Qed.

Lemma lower_ascii_idemp c :
  PyStr.lower_ascii (PyStr.lower_ascii c) = PyStr.lower_ascii c.
Proof.
  destruct c as [[] [] [] [] [] [] [] []]; vm_compute; reflexivity.
Qed.

Lemma lower_idemp s : PyStr.lower (PyStr.lower s) = PyStr.lower s.
Proof.
  induction s as [|c s IH]; [done|]. simpl. by rewrite lower_ascii_idemp, IH.
Qed.

(** What the matcher computes, for either case mode. *)
Lemma matcher_call glob ci name :
  _Matcher__call__ (_Matcher__init__ fnmatch glob ci) name
  = let pat := if PyStr.startswith_bang glob then PyStr.tail glob else glob in
    let pat := if ci then PyStr.lower pat else pat in
    xorb (PyStr.startswith_bang glob) (fnmatch name pat).
Proof.
  unfold _Matcher__call__, _Matcher__init__.
  destruct (PyStr.startswith_bang glob), ci; simpl;
    by destruct (fnmatch name _).
Qed.

(** In case-insensitive mode only the glob is lowercased; the file name is
    matched as it is. *)
Lemma matcher_case_insensitive_lowers_glob_only glob name :
  _Matcher__call__ (_Matcher__init__ fnmatch glob true) name
  = _Matcher__call__ (_Matcher__init__ fnmatch (PyStr.lower glob) false) name.
Proof.
  rewrite !matcher_call. simpl. rewrite startswith_bang_lower.
  destruct (PyStr.startswith_bang glob); by rewrite ?lower_tail.
Qed.

(** C5, as amended.  Negation law: for a glob [p] that does not itself start
    with ['!'], in either case mode, the filter built from ['!' ++ p]
    accepts a file name exactly when the filter built from [p] rejects
    it. *)
Theorem C5_negation_law (p : string) (case_insensitive : bool) (n : string) :
  PyStr.startswith_bang p = false →
  _Matcher__call__ (_Matcher__init__ fnmatch ("!" +:+ p) case_insensitive) n
  = negb (_Matcher__call__ (_Matcher__init__ fnmatch p case_insensitive) n).
Proof.
  intros Hp. rewrite !matcher_call, Hp. simpl.
  by destruct (fnmatch n _).
Qed.

End matcher_facts.

Lemma C5_witness :
  _Matcher__call__ (_Matcher__init__ Fnmatch.fnmatch ("!" +:+ "*.txt") false)
    "notes.md"
  = negb (_Matcher__call__ (_Matcher__init__ Fnmatch.fnmatch "*.txt" false)
            "notes.md").
Proof.
  apply (C5_negation_law Fnmatch.fnmatch "*.txt" false "notes.md").
  reflexivity.
Defined.

(** C5 fails for a glob that starts with ['!']: only one ['!'] is removed,
    so ["!!a"] negates the literal pattern ["!a"], while ["!a"] negates
    ["a"]; both filters accept the name ["b"]. *)
Lemma C5_counterexample :
  ¬ (_Matcher__call__ (_Matcher__init__ Fnmatch.fnmatch ("!" +:+ "!a") false) "b"
       = true
     ↔ _Matcher__call__ (_Matcher__init__ Fnmatch.fnmatch "!a" false) "b"
       = false).
Proof. vm_compute. intros [H _]. discriminate (H eq_refl). Qed.

(** C4.  The case-insensitive mode lowercases the glob but not the file
    name: with the glob ["*.txt"] the case-insensitive filter rejects the
    name ["A.TXT"], although the lowercased name matches the lowercased
    glob in case-sensitive mode. *)
Theorem C4_case_insensitive_name_not_lowered :
  _Matcher__call__ (_Matcher__init__ Fnmatch.fnmatch "*.txt" true) "A.TXT"
  = false
  ∧ _Matcher__call__
      (_Matcher__init__ Fnmatch.fnmatch (PyStr.lower "*.txt") false)
      (PyStr.lower "A.TXT")
    = true.
Proof. vm_compute. split; reflexivity. Qed.

(** ** The collector (C6) *)

Example path_name_samples :
  PyPath.name "d/sub/a.txt" = "a.txt" ∧ PyPath.name "a.txt" = "a.txt"
  ∧ PyPath.joinpath "d" "a.txt" = "d/a.txt"
  ∧ PyPath.joinpath "." "a.txt" = "a.txt"
  ∧ PyPath.joinpath "/" "a.txt" = "/a.txt".
Proof. vm_compute. tauto. Qed.

Section collector_facts.
Variable fnmatch : string → string → bool.
Variable set_order : list string → list string.
Variable fs : FileSystem.

Lemma elem_of_walk_files (root p : string) :
  p ∈ walk_files fs root
  ↔ ∃ subdir dirnames filenames name,
      (subdir, dirnames, filenames) ∈ walk fs root
      ∧ name ∈ filenames ∧ p = PyPath.joinpath subdir name.
Proof.
  unfold walk_files. rewrite list_elem_of_bind. split.
  - intros ([[subdir dirnames] filenames] & Hp & Hw).
    apply list_elem_of_fmap in Hp as (name & -> & Hname).
    by exists subdir, dirnames, filenames, name.
  - intros (subdir & dirnames & filenames & name & Hw & Hname & ->).
    exists (subdir, dirnames, filenames). split; [|done].
    apply list_elem_of_fmap. by exists name.
Qed.

(** In a traversed directory the loop body yields the listed paths, filtered
    by name when a glob is given. *)
Lemma collect_root_traversed (name_ok : string → bool) (glob : option string)
    (root : string) :
  is_file fs root = false → is_dir fs root = true →
  collect_root fs name_ok true glob root
  = match glob with
    | None => walk_files fs root
    | Some _ => filter (λ p, name_ok (PyPath.name p)) (walk_files fs root)
    end.
Proof.
  intros Hfile Hdir. unfold collect_root, walk_files.
  rewrite Hfile, Hdir. cbn [andb]. destruct glob as [g|]; [|done].
  induction (walk fs root) as [|[[subdir dirnames] filenames] w IH]; [done|].
  by rewrite !bind_cons, filter_app, IH.
Qed.

Lemma elem_of_collect_root (name_ok : string → bool) (recursive : bool)
    (glob : option string) (root p : string) :
  (glob = None → ∀ n, name_ok n = true) →
  p ∈ collect_root fs name_ok recursive glob root
  ↔ name_ok (PyPath.name p) = true
    ∧ ((p = root ∧ is_file fs root = true)
       ∨ (recursive = true ∧ is_file fs root = false ∧ is_dir fs root = true
          ∧ ∃ subdir dirnames filenames name,
              (subdir, dirnames, filenames) ∈ walk fs root
              ∧ name ∈ filenames ∧ p = PyPath.joinpath subdir name)).
Proof.
  intros Hnone.
  destruct (is_file fs root) eqn:Hfile.
  - unfold collect_root. rewrite Hfile.
    destruct (name_ok (PyPath.name root)) eqn:Hok.
    + rewrite list_elem_of_singleton. split.
      * intros ->. split; [done|]. by left.
      * intros [_ [[-> _]|(_ & ? & _)]]; done.
    + rewrite elem_of_nil. split; [done|].
      intros [Hp [[-> _]|(_ & ? & _)]]; congruence.
  - destruct recursive; [destruct (is_dir fs root) eqn:Hdir|].
    + rewrite collect_root_traversed by done.
      rewrite <-elem_of_walk_files. destruct glob as [g|].
      * rewrite list_elem_of_filter, Is_true_true. split.
        -- intros [Hok Hin]. split; [done|]. by right.
        -- intros [Hok [[_ ?]|(_ & _ & _ & Hin)]]; done.
      * split.
        -- intros Hin. split; [by apply Hnone|]. by right.
        -- intros [_ [[_ ?]|(_ & _ & _ & Hin)]]; done.
    + unfold collect_root. rewrite Hfile, Hdir. cbn [andb].
      rewrite elem_of_nil. split; [done|].
      intros [_ [[_ ?]|(_ & _ & ? & _)]]; done.
    + unfold collect_root. rewrite Hfile. cbn [andb].
      rewrite elem_of_nil. split; [done|].
      intros [_ [[_ ?]|(? & _)]]; done.
Qed.


End collector_facts.

Lemma last_occurrence_order_NoDup l : NoDup (last_occurrence_order l).
Proof. apply NoDup_remove_dups. Qed.

Lemma last_occurrence_order_elem l x : x ∈ last_occurrence_order l ↔ x ∈ l.
Proof. apply elem_of_remove_dups. Qed.


Example collect_dir_and_file :
  _collect_file_paths Fnmatch.fnmatch last_occurrence_order fs_dir_and_file
    ["d"; "c.txt"; "d"] true (Some "*.txt") false
  = ["c.txt"; "d/a.txt"; "d/b.txt"].
Proof. vm_compute. reflexivity. Qed.

Example collect_repeated_root :
  _collect_file_paths Fnmatch.fnmatch last_occurrence_order fs_scenario_a
    ["a.txt"; "b.txt"; "a.txt"] true (Some "*.txt") false
  = ["b.txt"; "a.txt"].
Proof. vm_compute. reflexivity. Qed.

(** Whatever the order in which the set of roots is visited, the directory
    [d] and the file [d/a.txt] given together make the collector yield
    [d/a.txt] twice. *)
Lemma overlapping_roots_yield_twice (set_order : list string → list string) :
  (∀ l, NoDup (set_order l)) →
  (∀ l x, x ∈ set_order l ↔ x ∈ l) →
  _collect_file_paths Fnmatch.fnmatch set_order fs_one_dir
    ["d"; "d/a.txt"] true None false
  = ["d/a.txt"; "d/a.txt"].
Proof.
  intros Hnd Hel.
  assert (Hp : ["d"; "d/a.txt"] ≡ₚ set_order ["d"; "d/a.txt"]).
  { apply NoDup_Permutation; [|apply Hnd|intros x; by rewrite Hel].
    apply (bool_decide_unpack _). vm_compute. exact I. }
  unfold _collect_file_paths.
  apply Permutation_length_2_inv in Hp as [-> | ->]; vm_compute; reflexivity.
Qed.


(** ** Hashing (C7) and the empty candidate set (C9) *)

(** With enough fuel the read loop feeds the whole file to the digest. *)
Lemma read_loop_all (fuel blocksize : nat) (f acc : list byte) :
  0 < blocksize → length f < fuel →
  read_loop fuel blocksize f acc = Some (acc ++ f).
Proof.
  intros Hbs. revert f acc.
  induction fuel as [|fuel IH]; intros f acc Hlen; [lia|].
  simpl. destruct f as [|b f].
  - rewrite take_nil. by rewrite app_nil_r.
  - destruct blocksize as [|bs]; [lia|].
    rewrite firstn_cons. rewrite IH.
    + rewrite <-app_assoc. simpl. by rewrite take_drop.
    + simpl in *. rewrite length_drop. lia.
Qed.

Section hashing_facts.
Variable fs : FileSystem.
Variable hashlib_new : string → option (list byte → option string).

(** [_compute_hash] returns the digest of the whole content of the file. *)
Lemma compute_hash_whole_file (path hash_algorithm : string) (blocksize : nat) :
  0 < blocksize →
  _compute_hash fs hashlib_new path hash_algorithm blocksize
  = hexdigest ← hashlib_new hash_algorithm;
    f ← content fs path;
    hex ← hexdigest f;
    Some (mk_HashResult path hex).
Proof.
  intros Hbs. unfold _compute_hash.
  destruct (hashlib_new hash_algorithm) as [h|]; [|done].
  destruct (content fs path) as [f|]; [|done]. cbn -[read_loop].
  rewrite read_loop_all by (done || lia). done.
Qed.

End hashing_facts.

Lemma hash_a_txt :
  _compute_hash fs_scenario_a hashlib_md5 "a.txt" "md5" default_blocksize
  = Some (mk_HashResult "a.txt" "5d41402abc4b2a76b9719d911017c592").
Proof. vm_compute. reflexivity. Qed.

Lemma hash_b_txt :
  _compute_hash fs_scenario_a hashlib_md5 "b.txt" "md5" default_blocksize
  = Some (mk_HashResult "b.txt" "5d41402abc4b2a76b9719d911017c592").
Proof. vm_compute. reflexivity. Qed.

(** C7, as amended.  Scenario A: for the two files [a.txt] and [b.txt]
    holding [hello], submitted in either order and completing in any order,
    hashing with [md5] and aggregating gives exactly one group; its digest
    is the 32-digit string [5d41402abc4b2a76b9719d911017c592] and its path
    list is [a.txt], [b.txt] in sorted order. *)
Theorem C7_scenario_a
    (as_completed : list (option _HashResult) → list (option _HashResult))
    (paths : list string) (show_progress : bool) :
  paths ≡ₚ ["a.txt"; "b.txt"] →
  (∀ l, as_completed l ≡ₚ l) →
  returned (_file_hashes fs_scenario_a hashlib_md5 as_completed "md5" paths
              show_progress)
  = Some [("5d41402abc4b2a76b9719d911017c592", ["a.txt"; "b.txt"])].
Proof.
  intros Hpaths Hc. symmetry in Hpaths.
  apply Permutation_length_2_inv in Hpaths as [-> | ->];
    unfold _file_hashes; rewrite !fmap_cons, fmap_nil; simpl fst; simpl snd;
    rewrite hash_a_txt, hash_b_txt; cbv iota; simpl returned;
    match goal with
    | |- context [as_completed ?l] =>
        let H := fresh in
        pose proof (Hc l) as H; symmetry in H;
        apply Permutation_length_2_inv in H as [-> | ->]
    end; vm_compute; reflexivity.
Qed.

Lemma C7_witness :
  returned (_file_hashes fs_scenario_a hashlib_md5 in_submission_order "md5"
              ["b.txt"; "a.txt"] true)
  = Some [("5d41402abc4b2a76b9719d911017c592", ["a.txt"; "b.txt"])].
Proof.
  apply (C7_scenario_a in_submission_order ["b.txt"; "a.txt"] true).
  - apply perm_swap.
  - intros l. reflexivity.
Defined.

(** C7 fails as stated: the digest of [hello] is not the 31-digit string
    [5d41402abc4b2a76b9719d911017c59]. *)
Lemma C7_counterexample :
  returned (_file_hashes fs_scenario_a hashlib_md5 in_submission_order "md5"
              ["a.txt"; "b.txt"] true)
  ≠ Some [("5d41402abc4b2a76b9719d911017c59", ["a.txt"; "b.txt"])].
Proof. vm_compute. discriminate. Qed.

Section main_facts.
Variable fnmatch : string → string → bool.
Variable set_order : list string → list string.
Variable fs : FileSystem.
Variable hashlib_new : string → option (list byte → option string).
Variable as_completed : list (option _HashResult) → list (option _HashResult).
Variable click_style : string → string → bool → string.
Variable json_str : string → string.

(** C9.  An empty candidate set is not fatal.  When the collector yields no
    path, [_file_hashes] submits no work, writes the warning to the error
    stream and returns the empty dictionary; [main] goes on to the report
    on the empty dictionary instead of failing. *)
Theorem C9_empty_candidates_not_fatal (paths : list string)
    (jobs : option nat) (quiet : bool) (fmt : output_format)
    (hash_algorithm : string) (match_digests : list string)
    (show_progress recursive : bool) (glob : option string)
    (glob_case_insensitive : bool) :
  _collect_file_paths fnmatch set_order fs paths recursive glob
    glob_case_insensitive = [] →
  _file_hashes fs hashlib_new as_completed hash_algorithm [] show_progress
  = {| submitted := [];
       err_lines := ["Warning: no files passed"];
       returned := Some [] |}
  ∧ main fnmatch set_order fs hashlib_new as_completed click_style json_str
      paths jobs quiet fmt hash_algorithm match_digests show_progress
      recursive glob glob_case_insensitive
    = ({| submitted := [];
          err_lines := ["Warning: no files passed"];
          returned := Some [] |},
       Some (main_report click_style json_str quiet fmt hash_algorithm
               match_digests [])).
Proof.
  intros Hempty. split; [reflexivity|].
  unfold main. rewrite Hempty. unfold _file_hashes. simpl.
  by destruct match_digests.
Qed.

End main_facts.

(** Scenario B: a directory root without [--recursive] yields no candidate;
    the quiet run exits with status 1. *)
Lemma C9_witness :
  main Fnmatch.fnmatch last_occurrence_order fs_one_dir hashlib_md5
    in_submission_order plain_style json_plain
    ["d"] None true txt "md5" [] true false None false
  = ({| submitted := [];
        err_lines := ["Warning: no files passed"];
        returned := Some [] |},
     Some {| stdout := ""; exit_code := 1 |}).
Proof.
  refine (proj2
    (C9_empty_candidates_not_fatal Fnmatch.fnmatch last_occurrence_order
       fs_one_dir hashlib_md5 in_submission_order plain_style json_plain
       ["d"] None true txt "md5" [] true false None false _)).
  vm_compute. reflexivity.
Defined.

(** ** The completion order and [_file_hashes] *)

Lemma mapM_id_Some {A} (l : list (option A)) (rs : list A) :
  mapM id l = Some rs ↔ l = Some <$> rs.
Proof.
  rewrite mapM_Some. split.
  - induction 1 as [|x y l rs Hxy _ IH]; [done|]. simpl in *. by subst.
  - intros ->. induction rs as [|r rs IH]; constructor; done.
Qed.

Lemma mapM_id_Permutation {A} (l l' : list (option A)) (rs : list A) :
  l ≡ₚ l' → mapM id l = Some rs →
  ∃ rs', mapM id l' = Some rs' ∧ rs ≡ₚ rs'.
Proof.
  intros Hp ->%mapM_id_Some. symmetry in Hp.
  apply Permutation_map_inv in Hp as (rs' & -> & Hp').
  exists rs'. split; [by apply mapM_id_Some | done].
Qed.

(** Two runs of [_file_hashes] that differ only in the completion order
    both raise or both return, and then every digest has the same group. *)
Lemma file_hashes_completion_order (fs : FileSystem)
    (hashlib_new : string → option (list byte → option string))
    (order1 order2 : list (option _HashResult) → list (option _HashResult))
    (hash_algorithm : string) (paths : list string) (show_progress : bool)
    (d : string) :
  (∀ l, order1 l ≡ₚ l) → (∀ l, order2 l ≡ₚ l) →
  (λ hashes, PyDict.get hashes d)
    <$> returned (_file_hashes fs hashlib_new order1 hash_algorithm paths
                    show_progress)
  = (λ hashes, PyDict.get hashes d)
      <$> returned (_file_hashes fs hashlib_new order2 hash_algorithm paths
                      show_progress).
Proof.
  intros H1 H2. unfold _file_hashes.
  destruct (_ <$> (_ <$> paths)) as [|fut futs] eqn:E; [done|].
  simpl returned. rewrite <-E. clear E.
  set (futures := _ <$> (_ <$> paths)).
  assert (Hp : order1 futures ≡ₚ order2 futures) by (by rewrite H1, H2).
  destruct (mapM id (order1 futures)) as [rs1|] eqn:E1.
  - destruct (mapM_id_Permutation _ _ _ Hp E1) as (rs2 & -> & Hrs). simpl.
    f_equal.
    apply (aggregate_get_Permutation rs1 rs2 d Hrs).
  - destruct (mapM id (order2 futures)) as [rs2|] eqn:E2; [|done].
    symmetry in Hp.
    destruct (mapM_id_Permutation _ _ _ Hp E2) as (rs1 & E1' & _).
    congruence.
Qed.

(** Scenario C: a target digest that no file has; the text report is empty
    and the exit status is 1. *)
Example scenario_c :
  (main Fnmatch.fnmatch last_occurrence_order fs_scenario_a hashlib_md5
     in_submission_order plain_style json_plain
     ["a.txt"; "b.txt"] None false txt "md5" ["abc123"] false false None
     false).2
  = Some {| stdout := ""; exit_code := 1 |}.
Proof. vm_compute. reflexivity. Qed.

(** Scenario A through [main]: the text report of the duplicate pair. *)
Example scenario_a_report :
  (main Fnmatch.fnmatch last_occurrence_order fs_scenario_a hashlib_md5
     in_submission_order plain_style json_plain
     ["a.txt"; "b.txt"] None false txt "md5" [] false false None false).2
  = Some {| stdout :=
              "2 files with md5 hash '5d41402abc4b2a76b9719d911017c592':"
              +:+ PyStr.LF +:+ "a.txt" +:+ PyStr.LF +:+ "b.txt" +:+ PyStr.LF;
            exit_code := 0 |}.
Proof. vm_compute. reflexivity. Qed.

(** * Further properties of the program *)

(** ** Groups as a partition of the results *)

Lemma concat_values_setdefault (k : string) (d : PyDict.t (list string)) :
  concat (PyDict.setdefault k [] d).*2 = concat d.*2.
Proof.
  unfold PyDict.setdefault. destruct (PyDict.get d k); [done|].
  rewrite fmap_app, concat_app. simpl. by rewrite app_nil_r.
Qed.

Lemma concat_values_alter (k p : string) (d : PyDict.t (list string)) :
  k ∈ PyDict.keys d →
  concat (PyDict.alter (λ ps, ps ++ [p]) k d).*2 ≡ₚ concat d.*2 ++ [p].
Proof.
  unfold PyDict.keys. induction d as [|[k' ps] d IH]; simpl.
  - by intros ?%elem_of_nil.
  - intros Hin. case_decide as Hk; simpl.
    + rewrite <-!app_assoc. apply Permutation_app_head, Permutation_app_comm.
    + apply elem_of_cons in Hin as [->|Hin]; [done|].
      rewrite IH by done. by rewrite app_assoc.
Qed.

Lemma concat_values_consume hashes res :
  concat (consume hashes res).*2 ≡ₚ concat hashes.*2 ++ [path res].
Proof.
  unfold consume. rewrite concat_values_alter.
  - by rewrite concat_values_setdefault.
  - rewrite keys_setdefault. case_decide; [by rewrite app_nil_r|].
    apply elem_of_app. right. apply list_elem_of_here.
Qed.

Lemma concat_values_foldl_consume hashes rs :
  concat (foldl consume hashes rs).*2 ≡ₚ concat hashes.*2 ++ (path <$> rs).
Proof.
  revert hashes. induction rs as [|r rs IH]; intros hashes; simpl.
  - by rewrite app_nil_r.
  - rewrite IH, concat_values_consume. by rewrite <-app_assoc.
Qed.

Lemma concat_values_sorted (d : PyDict.t (list string)) :
  concat ((λ dp, (dp.1, sorted dp.2)) <$> d).*2 ≡ₚ concat d.*2.
Proof.
  induction d as [|[k ps] d IH]; [done|].
  rewrite !fmap_cons. simpl. by rewrite IH, sorted_Permutation.
Qed.

(** X4.  No result is lost or repeated by the aggregation: the paths of all
    the groups of the returned dictionary, taken together, are the paths of
    the consumed results, each as often as it was consumed. *)
Theorem aggregate_groups_partition_paths (completed : list _HashResult) :
  concat (aggregate completed).*2 ≡ₚ path <$> completed.
Proof.
  rewrite aggregate_fmap, concat_values_sorted. unfold accumulate.
  by rewrite concat_values_foldl_consume.
Qed.

(** X5.  A path is listed in the group of digest [d] exactly when a result
    pairing that path with [d] was consumed: equal digests share a group,
    different digests never do. *)
Theorem aggregate_group_membership (completed : list _HashResult)
    (d p : string) :
  (∃ ps, PyDict.get (aggregate completed) d = Some ps ∧ p ∈ ps)
  ↔ mk_HashResult p d ∈ completed.
Proof.
  rewrite get_aggregate.
  assert (Hmem : p ∈ paths_with d completed ↔ mk_HashResult p d ∈ completed).
  { unfold paths_with. rewrite list_elem_of_fmap. split.
    - intros ([p' d'] & -> & [Hd Hin]%list_elem_of_filter).
      simpl in *. by subst.
    - intros Hin. exists (mk_HashResult p d). split; [done|].
      by apply list_elem_of_filter. }
  rewrite <-Hmem. split.
  - intros (ps & Hget & Hp). destruct (paths_with d completed) eqn:E; [done|].
    injection Hget as <-. by rewrite sorted_Permutation in Hp.
  - intros Hp. destruct (paths_with d completed) as [|q qs] eqn:E.
    + by apply elem_of_nil in Hp.
    + eexists. split; [done|]. by rewrite sorted_Permutation.
Qed.

(** ** The order of the keys *)

Lemma keys_aggregate rs : PyDict.keys (aggregate rs) = PyDict.keys (accumulate rs).
Proof.
  rewrite aggregate_fmap. unfold PyDict.keys. by rewrite <-list_fmap_compose.
Qed.

(** X6.  The keys of the returned dictionary are the distinct digests in the
    order in which each digest was first completed: [remove_dups] keeps the
    last occurrence of every element, so between the two reversals it keeps
    the first. *)
Theorem aggregate_keys_first_completion_order (completed : list _HashResult) :
  PyDict.keys (aggregate completed)
  = reverse (remove_dups (reverse (digest <$> completed))).
Proof.
  rewrite keys_aggregate.
  induction completed as [|r rs IH] using rev_ind; [done|].
  unfold accumulate in *. rewrite foldl_app. simpl.
  rewrite keys_consume, fmap_app. change (digest <$> [r]) with [digest r].
  rewrite reverse_snoc. simpl.
  assert (Hin : digest r ∈ PyDict.keys (foldl consume [] rs)
                ↔ digest r ∈ reverse (digest <$> rs)).
  { rewrite keys_foldl_consume, elem_of_reverse. unfold PyDict.keys. simpl.
    rewrite elem_of_nil. tauto. }
  destruct (decide (digest r ∈ PyDict.keys (foldl consume [] rs))) as [Hk|Hk];
    destruct (decide_rel elem_of (digest r) (reverse (digest <$> rs)))
      as [Hr|Hr]; try tauto.
  - by rewrite app_nil_r.
  - by rewrite reverse_cons, IH.
Qed.

(** ** When the retained dictionary is empty *)

Lemma filter_nil_Forall {A} (P : A → Prop) `{!∀ x, Decision (P x)} (l : list A) :
  filter P l = [] ↔ Forall (λ x, ¬ P x) l.
Proof.
  induction l as [|x l IH]; [by split; [constructor|]|].
  rewrite filter_cons, Forall_cons. case_decide; [|rewrite IH; tauto].
  split; [done|]. by intros [? _].
Qed.

Lemma NoDup_fmap_filter_length {A B} `{!EqDecision B} (f : A → B) (l : list A) :
  NoDup (f <$> l) ↔ ∀ d, (length (filter (λ r, f r = d) l) ≤ 1)%nat.
Proof.
  induction l as [|a l IH].
  - split; [intros _ d; simpl; lia | constructor].
  - rewrite fmap_cons, NoDup_cons, IH. split.
    + intros [Ha Hl] d. rewrite filter_cons. case_decide as Hd; [|apply Hl].
      assert (filter (λ r, f r = d) l = []) as ->; [|simpl; lia].
      apply filter_nil_Forall, Forall_forall. intros r Hr Hfr.
      apply Ha, list_elem_of_fmap. exists r. split; congruence.
    + intros H. split.
      * intros (r & Hfr & Hr)%list_elem_of_fmap.
        specialize (H (f a)). rewrite filter_cons, decide_True in H by done.
        assert (r ∈ filter (λ r, f r = f a) l) as Hin
          by (by apply list_elem_of_filter).
        destruct (filter (λ r, f r = f a) l); [by apply elem_of_nil in Hin|].
        simpl in H. lia.
      * intros d. specialize (H d). rewrite filter_cons in H.
        case_decide; simpl in H; lia.
Qed.

Lemma elem_of_aggregate rs d ps :
  (d, ps) ∈ aggregate rs
  ↔ paths_with d rs ≠ [] ∧ ps = sorted (paths_with d rs).
Proof.
  split.
  - intros Hin%elem_of_get; [|apply wf_aggregate].
    rewrite get_aggregate in Hin.
    destruct (paths_with d rs); [done|]. by injection Hin as <-.
  - intros [Hne ->]. apply get_Some_elem_of. rewrite get_aggregate.
    by destruct (paths_with d rs).
Qed.

Lemma length_sorted l : length (sorted l) = length l.
Proof. by rewrite sorted_Permutation. Qed.

Lemma duplicates_retained_nil rs :
  main_filter [] (aggregate rs) = [] ↔ NoDup (digest <$> rs).
Proof.
  rewrite main_filter_duplicates by apply wf_aggregate.
  rewrite filter_nil_Forall, Forall_forall, NoDup_fmap_filter_length. split.
  - intros H d. destruct (paths_with d rs) as [|p ps] eqn:E.
    + unfold paths_with in E. apply fmap_nil_inv in E. rewrite E. simpl. lia.
    + specialize (H (d, sorted (paths_with d rs))). simpl in H.
      rewrite length_sorted in H. unfold paths_with in H at 2.
      rewrite length_fmap in H.
      assert ((d, sorted (paths_with d rs)) ∈ aggregate rs) as Hin.
      { apply elem_of_aggregate. by rewrite E. }
      specialize (H Hin). lia.
  - intros H [d ps] [_ ->]%elem_of_aggregate. simpl.
    rewrite length_sorted. unfold paths_with. rewrite length_fmap.
    specialize (H d). lia.
Qed.

Lemma match_retained_nil m ms rs :
  main_filter (m :: ms) (aggregate rs) = []
  ↔ Forall (λ r, digest r ∉ m :: ms) rs.
Proof.
  rewrite main_filter_match by apply wf_aggregate.
  rewrite filter_nil_Forall, !Forall_forall. split.
  - intros H r Hr Hd.
    assert (digest r ∈ PyDict.keys (aggregate rs)) as Hk.
    { rewrite keys_aggregate. unfold accumulate. rewrite keys_foldl_consume.
      right. apply list_elem_of_fmap. by exists r. }
    apply list_elem_of_fmap in Hk as ([d ps] & Heq & Hin). simpl in Heq.
    subst d. by apply (H _ Hin).
  - intros H [d ps] Hin Hd. simpl in Hd.
    assert (d ∈ PyDict.keys (aggregate rs)) as Hk.
    { apply list_elem_of_fmap. by exists (d, ps). }
    rewrite keys_aggregate in Hk. unfold accumulate in Hk.
    rewrite keys_foldl_consume in Hk. destruct Hk as [Hk|Hk].
    + by apply elem_of_nil in Hk.
    + apply list_elem_of_fmap in Hk as (r & -> & Hr). by apply (H r).
Qed.

(** X7.  Duplicates mode reports something exactly when two of the hashed
    results carry the same digest: the retained dictionary is empty if and
    only if the digests of the results are pairwise different. *)
Theorem duplicates_reported_iff_shared_digest (completed : list _HashResult) :
  main_filter [] (aggregate completed) = [] ↔ NoDup (digest <$> completed).
Proof. apply duplicates_retained_nil. Qed.

(** X8.  Match mode retains nothing exactly when no hashed result carries
    one of the target digests. *)
Theorem match_retains_nothing_iff_no_target (m : string) (ms : list string)
    (completed : list _HashResult) :
  main_filter (m :: ms) (aggregate completed) = []
  ↔ Forall (λ r, digest r ∉ m :: ms) completed.
Proof. apply match_retained_nil. Qed.

(** ** Hashing one file, hashing them all *)

Lemma default_blocksize_pos : 0 < default_blocksize.
Proof. unfold default_blocksize. lia. Qed.

Lemma read_loop_zero (fuel : nat) (f acc : list byte) :
  read_loop (S fuel) 0 f acc = Some acc.
Proof. reflexivity. Qed.


(** With [shake_128] the worker raises at [hexdigest()], and so does the
    run, although the algorithm is known and the file can be read. *)
Example shake_has_no_hexdigest :
  _compute_hash fs_scenario_a hashlib_md5_shake "a.txt" "shake_128"
    default_blocksize = None
  ∧ (main Fnmatch.fnmatch last_occurrence_order fs_scenario_a
       hashlib_md5_shake in_submission_order plain_style json_plain
       ["a.txt"; "b.txt"] None true txt "shake_128" [] true false None
       false).2 = None.
Proof. vm_compute. split; reflexivity. Qed.

(** When every file can be read and digested, every future holds a
    result, and the digests of the results are the digests of the
    contents. *)
Lemma all_hashed (fs : FileSystem)
    (hashlib_new : string → option (list byte → option string))
    (hash_algorithm : string) (hexdigest : list byte → option string)
    (paths : list string) (files : list (list byte))
    (digests : list string) :
  hashlib_new hash_algorithm = Some hexdigest →
  Forall2 (λ p f, content fs p = Some f) paths files →
  Forall2 (λ f d, hexdigest f = Some d) files digests →
  ∃ rs, (λ p, _compute_hash fs hashlib_new p hash_algorithm default_blocksize)
          <$> paths = Some <$> rs
        ∧ digest <$> rs = digests.
Proof.
  intros Halg Hfiles. revert digests.
  induction Hfiles as [|p f ps fs' Hp _ IH]; intros digests Hd.
  - apply Forall2_nil_inv_l in Hd as ->. by exists [].
  - apply Forall2_cons_inv_l in Hd as (d & ds & Hf & Hds & ->).
    destruct (IH _ Hds) as (rs & Hrs & Hdig).
    exists (mk_HashResult p d :: rs). split.
    + rewrite !fmap_cons, Hrs. f_equal.
      rewrite compute_hash_whole_file by apply default_blocksize_pos.
      rewrite Halg. simpl. rewrite Hp. simpl. by rewrite Hf.
    + by rewrite !fmap_cons, Hdig.
Qed.

(** Files with pairwise different digests have pairwise different paths. *)
Lemma NoDup_digests_NoDup_paths (fs : FileSystem)
    (hexdigest : list byte → option string)
    (collected : list string) (files : list (list byte))
    (digests : list string) :
  Forall2 (λ p f, content fs p = Some f) collected files →
  Forall2 (λ f d, hexdigest f = Some d) files digests →
  NoDup digests → NoDup collected.
Proof.
  intros Hfiles. revert digests.
  induction Hfiles as [|p f ps fs' Hp Hrest IH]; intros digests Hd;
    [constructor|].
  apply Forall2_cons_inv_l in Hd as (d & ds & Hf & Hds & ->).
  rewrite !NoDup_cons. intros [Hnin Hnd]. split; [|by eapply IH].
  intros Hin. apply Hnin.
  apply list_elem_of_lookup in Hin as [i Hi].
  destruct (Forall2_lookup_l _ _ _ _ _ Hrest Hi) as (f' & Hf' & Hc).
  assert (f' = f) as -> by congruence.
  destruct (Forall2_lookup_l _ _ _ _ _ Hds Hf') as (d' & Hd' & Hh).
  assert (d' = d) as -> by congruence.
  by apply list_elem_of_lookup_2 in Hd'.
Qed.

Section run_facts.
Variable fnmatch : string → string → bool.
Variable set_order : list string → list string.
Variable fs : FileSystem.
Variable hashlib_new : string → option (list byte → option string).
Variable as_completed : list (option _HashResult) → list (option _HashResult).
Variable click_style : string → string → bool → string.
Variable json_str : string → string.
Hypothesis as_completed_perm : ∀ l, as_completed l ≡ₚ l.

Lemma file_hashes_returned (hash_algorithm : string) (paths : list string)
    (show_progress : bool) :
  returned (_file_hashes fs hashlib_new as_completed hash_algorithm paths
              show_progress)
  = match paths with
    | [] => Some []
    | _ =>
        aggregate
          <$> mapM id
                (as_completed
                   ((λ p, _compute_hash fs hashlib_new p hash_algorithm
                            default_blocksize) <$> paths))
    end.
Proof.
  unfold _file_hashes. rewrite <-list_fmap_compose.
  by destruct paths.
Qed.

Lemma mapM_id_None {A} (l : list (option A)) : mapM id l = None ↔ None ∈ l.
Proof.
  rewrite mapM_None, Exists_exists. split.
  - intros (x & Hx & Heq). simpl in Heq. by subst.
  - intros H. by exists None.
Qed.

Lemma file_hashes_returned_None (hash_algorithm : string)
    (paths : list string) (show_progress : bool) :
  returned (_file_hashes fs hashlib_new as_completed hash_algorithm paths
              show_progress) = None
  ↔ ∃ p, p ∈ paths
         ∧ _compute_hash fs hashlib_new p hash_algorithm default_blocksize
           = None.
Proof.
  rewrite file_hashes_returned. destruct paths as [|p0 ps].
  - split; [done|]. by intros (p & ?%elem_of_nil & _).
  - rewrite fmap_None, mapM_id_None, as_completed_perm, list_elem_of_fmap.
    split; intros (p & H1 & H2); exists p; done.
Qed.

Lemma file_hashes_returned_Some (hash_algorithm : string)
    (paths : list string) (show_progress : bool) (rs : list _HashResult) :
  (λ p, _compute_hash fs hashlib_new p hash_algorithm default_blocksize)
    <$> paths = Some <$> rs →
  ∃ rs', rs ≡ₚ rs'
         ∧ returned (_file_hashes fs hashlib_new as_completed hash_algorithm
                       paths show_progress) = Some (aggregate rs').
Proof.
  intros Hf. rewrite file_hashes_returned. destruct paths as [|p0 ps].
  - symmetry in Hf. apply fmap_nil_inv in Hf as ->. by exists [].
  - rewrite Hf.
    destruct (mapM_id_Permutation (Some <$> rs) (as_completed (Some <$> rs)) rs)
      as (rs' & -> & Hp); [by rewrite as_completed_perm|by apply mapM_id_Some|].
    by exists rs'.
Qed.

(** X2.  One failure fails the whole run: [_file_hashes] raises exactly
    when hashing raises for at least one of the submitted paths, whatever
    the completion order, and [main] then ends with that exception instead
    of a report. *)
Theorem file_hashes_raises_iff_some_file_fails (paths : list string)
    (jobs : option nat) (quiet : bool) (fmt : output_format)
    (hash_algorithm : string) (match_digests : list string)
    (show_progress recursive : bool) (glob : option string)
    (glob_case_insensitive : bool) :
  let fails p :=
    _compute_hash fs hashlib_new p hash_algorithm default_blocksize = None in
  (returned (_file_hashes fs hashlib_new as_completed hash_algorithm paths
               show_progress) = None
   ↔ ∃ p, p ∈ paths ∧ fails p)
  ∧ ((main fnmatch set_order fs hashlib_new as_completed click_style json_str
        paths jobs quiet fmt hash_algorithm match_digests show_progress
        recursive glob glob_case_insensitive).2 = None
     ↔ ∃ p, p ∈ _collect_file_paths fnmatch set_order fs paths recursive glob
                  glob_case_insensitive
            ∧ fails p).
Proof.
  intros fails. unfold fails. split; [apply file_hashes_returned_None|].
  rewrite <-(file_hashes_returned_None hash_algorithm _
               (if quiet then false else show_progress)).
  unfold main. cbn [snd]. by destruct (returned _).
Qed.

(** X3.  The completion order does not change the outcome of
    [_file_hashes]: two runs over the same paths that differ only in the
    order in which the futures complete submit the same work, both raise or
    both return, and when they return every digest has the same group. *)
Theorem file_hashes_any_completion_order
    (order2 : list (option _HashResult) → list (option _HashResult))
    (hash_algorithm : string) (paths : list string) (show_progress : bool)
    (d : string) :
  (∀ l, order2 l ≡ₚ l) →
  let run1 := _file_hashes fs hashlib_new as_completed hash_algorithm paths
                show_progress in
  let run2 := _file_hashes fs hashlib_new order2 hash_algorithm paths
                show_progress in
  submitted run1 = submitted run2
  ∧ err_lines run1 = err_lines run2
  ∧ (returned run1 = None ↔ returned run2 = None)
  ∧ (λ hashes, PyDict.get hashes d) <$> returned run1
    = (λ hashes, PyDict.get hashes d) <$> returned run2.
Proof.
  intros Hperm2 run1 run2.
  pose proof (file_hashes_completion_order fs hashlib_new as_completed order2
                hash_algorithm paths show_progress d as_completed_perm Hperm2)
    as Hget.
  fold run1 run2 in Hget. split_and!; [| | |done].
  - unfold run1, run2, _file_hashes. by destruct paths.
  - unfold run1, run2, _file_hashes. by destruct paths.
  - destruct (returned run1), (returned run2); simpl in Hget; try done.
Qed.

Lemma main_quiet_outcome (paths : list string)
    (jobs : option nat) (fmt : output_format) (hash_algorithm : string)
    (show_progress recursive : bool) (glob : option string)
    (glob_case_insensitive : bool) (hexdigest : list byte → option string)
    (files : list (list byte)) (digests : list string) :
  hashlib_new hash_algorithm = Some hexdigest →
  Forall2 (λ p f, content fs p = Some f)
    (_collect_file_paths fnmatch set_order fs paths recursive glob
       glob_case_insensitive) files →
  Forall2 (λ f d, hexdigest f = Some d) files digests →
  (main fnmatch set_order fs hashlib_new as_completed click_style json_str
     paths jobs true fmt hash_algorithm [] show_progress recursive glob
     glob_case_insensitive).2
  = Some {| stdout := "";
            exit_code := if decide (NoDup digests) then 1 else 0 |}.
Proof.
  intros Halg Hfiles Hdigests. unfold main. cbn [snd].
  set (collected := _collect_file_paths _ _ _ _ _ _ _) in *.
  destruct (all_hashed fs hashlib_new hash_algorithm hexdigest collected files
              digests Halg Hfiles Hdigests) as (rs & Hfut & Hdig).
  destruct (file_hashes_returned_Some hash_algorithm collected false rs Hfut)
    as (rs' & Hperm & ->). cbn -[main_filter aggregate main_report].
  f_equal. unfold main_report.
  assert (Hnd : NoDup digests ↔ NoDup (digest <$> rs'))
    by (by rewrite <-Hdig, Hperm).
  destruct (main_filter [] (aggregate rs')) as [|g gs] eqn:E.
  - apply duplicates_retained_nil in E. by rewrite decide_True by tauto.
  - rewrite decide_False; [done|]. intros H%Hnd%duplicates_retained_nil.
    congruence.
Qed.

(** X9.  The quiet duplicates run, end to end.  When hashing succeeds for
    every collected file ([hashlib.new] returns a digest object, every
    collected file can be read and [hexdigest()] returns on its content),
    [main] with [--quiet] and without target digests prints nothing and
    exits with status 1 if the digests of the collected files are pairwise
    different, and with status 0 if two of them are equal. *)
Theorem main_quiet_exit_iff_duplicates (paths : list string)
    (jobs : option nat) (fmt : output_format) (hash_algorithm : string)
    (show_progress recursive : bool) (glob : option string)
    (glob_case_insensitive : bool) (hexdigest : list byte → option string)
    (files : list (list byte)) (digests : list string) :
  hashlib_new hash_algorithm = Some hexdigest →
  Forall2 (λ p f, content fs p = Some f)
    (_collect_file_paths fnmatch set_order fs paths recursive glob
       glob_case_insensitive) files →
  Forall2 (λ f d, hexdigest f = Some d) files digests →
  (main fnmatch set_order fs hashlib_new as_completed click_style json_str
     paths jobs true fmt hash_algorithm [] show_progress recursive glob
     glob_case_insensitive).2
  = Some {| stdout := "";
            exit_code := if decide (NoDup digests) then 1 else 0 |}.
Proof.
  apply main_quiet_outcome.
Qed.

(** X16.  A file that is collected twice is reported as its own duplicate:
    when the collector yields some path more than once (as it does for
    overlapping roots) and every collected file can be hashed, the quiet
    duplicates run exits with status 0. *)
Theorem main_quiet_collected_twice (paths : list string)
    (jobs : option nat) (fmt : output_format) (hash_algorithm : string)
    (show_progress recursive : bool) (glob : option string)
    (glob_case_insensitive : bool) (hexdigest : list byte → option string)
    (files : list (list byte)) (digests : list string) :
  hashlib_new hash_algorithm = Some hexdigest →
  Forall2 (λ p f, content fs p = Some f)
    (_collect_file_paths fnmatch set_order fs paths recursive glob
       glob_case_insensitive) files →
  Forall2 (λ f d, hexdigest f = Some d) files digests →
  ¬ NoDup (_collect_file_paths fnmatch set_order fs paths recursive glob
             glob_case_insensitive) →
  (main fnmatch set_order fs hashlib_new as_completed click_style json_str
     paths jobs true fmt hash_algorithm [] show_progress recursive glob
     glob_case_insensitive).2
  = Some {| stdout := ""; exit_code := 0 |}.
Proof.
  intros Halg Hfiles Hdigests Hdup.
  rewrite (main_quiet_outcome paths jobs fmt hash_algorithm show_progress
             recursive glob glob_case_insensitive hexdigest files digests
             Halg Hfiles Hdigests).
  rewrite decide_False; [done|].
  intros Hnd. apply Hdup. by eapply NoDup_digests_NoDup_paths.
Qed.

(** X10.  The match run, end to end.  When hashing succeeds for every
    collected file ([hashlib.new] returns a digest object, every collected
    file can be read and [hexdigest()] returns on its content), [main] with
    target digests exits with status 1 if no collected file has one of the
    target digests and with status 0 otherwise, with or without
    [--quiet]. *)
Theorem main_match_exit_iff_no_target (paths : list string)
    (jobs : option nat) (quiet : bool) (fmt : output_format)
    (hash_algorithm : string) (m : string) (ms : list string)
    (show_progress recursive : bool) (glob : option string)
    (glob_case_insensitive : bool) (hexdigest : list byte → option string)
    (files : list (list byte)) (digests : list string) :
  hashlib_new hash_algorithm = Some hexdigest →
  Forall2 (λ p f, content fs p = Some f)
    (_collect_file_paths fnmatch set_order fs paths recursive glob
       glob_case_insensitive) files →
  Forall2 (λ f d, hexdigest f = Some d) files digests →
  exit_code
    <$> snd (main fnmatch set_order fs hashlib_new as_completed click_style
               json_str paths jobs quiet fmt hash_algorithm (m :: ms)
               show_progress recursive glob glob_case_insensitive)
  = Some (if decide (Forall (λ d, d ∉ m :: ms) digests) then 1%Z
          else 0%Z).
Proof.
  intros Halg Hfiles Hdigests. unfold main. cbn [snd].
  set (collected := _collect_file_paths _ _ _ _ _ _ _) in *.
  destruct (all_hashed fs hashlib_new hash_algorithm hexdigest collected files
              digests Halg Hfiles Hdigests) as (rs & Hfut & Hdig).
  destruct (file_hashes_returned_Some hash_algorithm collected
              (if quiet then false else show_progress) rs Hfut)
    as (rs' & Hperm & ->). cbn -[main_filter aggregate main_report].
  f_equal.
  assert (Hall : Forall (λ d, d ∉ m :: ms) digests
                 ↔ Forall (λ r, digest r ∉ m :: ms) rs').
  { rewrite <-Hperm, <-Hdig.
    apply (Forall_fmap digest (λ x, x ∉ m :: ms)). }
  unfold main_report.
  destruct (main_filter (m :: ms) (aggregate rs')) as [|g gs] eqn:E.
  - apply match_retained_nil in E. rewrite decide_True by tauto.
    by destruct quiet.
  - rewrite decide_False; [by destruct quiet|].
    intros H%Hall%match_retained_nil. congruence.
Qed.

End run_facts.

(** ** More on the collector and the glob filter *)

Section collector_more.
Variable fnmatch : string → string → bool.
Variable set_order : list string → list string.
Variable fs : FileSystem.

(** X11.  Without [--recursive] the collector yields exactly the supplied
    roots that are regular files and whose name passes the filter, each
    once, in the order in which the set of roots is visited; directories
    contribute nothing. *)
Theorem collect_without_recursion (paths : list string)
    (glob : option string) (glob_case_insensitive : bool) :
  _collect_file_paths fnmatch set_order fs paths false glob
    glob_case_insensitive
  = filter (λ p, is_file fs p = true
                 ∧ filename_match fnmatch glob glob_case_insensitive
                     (PyPath.name p) = true)
      (set_order paths).
Proof.
  unfold _collect_file_paths.
  induction (set_order paths) as [|root roots IH]; [done|].
  rewrite bind_cons, IH, filter_cons. unfold collect_root at 1.
  destruct (is_file fs root) eqn:Hfile.
  - destruct (filename_match fnmatch glob glob_case_insensitive
                (PyPath.name root)) eqn:Hok.
    + by rewrite decide_True by done.
    + rewrite decide_False; [done|]. by intros [_ ?].
  - cbn [andb]. rewrite decide_False; [done|]. by intros [? _].
Qed.

(** X12.  What the collector yields.  A path is yielded exactly when its
    name passes the filter and it is either a supplied root that is a
    regular file, or, in a recursive run, a file listed by the walk of a
    supplied root that is a directory. *)
Theorem collect_yields_exactly (paths : list string) (recursive : bool)
    (glob : option string) (glob_case_insensitive : bool) (p : string) :
  (∀ l x, x ∈ set_order l ↔ x ∈ l) →
  p ∈ _collect_file_paths fnmatch set_order fs paths recursive glob
        glob_case_insensitive
  ↔ filename_match fnmatch glob glob_case_insensitive (PyPath.name p) = true
    ∧ ((p ∈ paths ∧ is_file fs p = true)
       ∨ (recursive = true
          ∧ ∃ root subdir dirnames filenames name,
              root ∈ paths ∧ is_file fs root = false ∧ is_dir fs root = true
              ∧ (subdir, dirnames, filenames) ∈ walk fs root
              ∧ name ∈ filenames ∧ p = PyPath.joinpath subdir name)).
Proof.
  intros Hel. unfold _collect_file_paths. rewrite list_elem_of_bind.
  assert (Hnone : glob = None →
            ∀ n, filename_match fnmatch glob glob_case_insensitive n = true)
    by (intros -> n; reflexivity).
  split.
  - intros (root & Hp & Hroot). apply (proj1 (Hel _ _)) in Hroot.
    apply elem_of_collect_root in Hp as [Hok Hp]; [|done].
    split; [done|].
    destruct Hp as [[-> Hf]|(Hr & Hf & Hd & subdir & dirnames & filenames
                             & name & Hw & Hname & ->)]; [by left|].
    right. split; [done|].
    by exists root, subdir, dirnames, filenames, name.
  - intros [Hok [[Hroot Hf]|(Hr & root & subdir & dirnames & filenames & name
                            & Hroot & Hf & Hd & Hw & Hname & ->)]].
    + exists p. split; [|by apply Hel].
      apply elem_of_collect_root; [done|]. split; [done|]. by left.
    + exists root. split; [|by apply Hel].
      apply elem_of_collect_root; [done|]. split; [done|]. right.
      split_and!; try done. by exists subdir, dirnames, filenames, name.
Qed.

(** X13.  Only the set of roots matters: two lists of roots with the same
    elements, in whatever order and with whatever repetitions, make the
    collector yield the same paths the same number of times. *)
Theorem collect_depends_on_root_set (paths paths' : list string)
    (recursive : bool) (glob : option string) (glob_case_insensitive : bool) :
  (∀ l, NoDup (set_order l)) →
  (∀ l x, x ∈ set_order l ↔ x ∈ l) →
  (∀ x, x ∈ paths ↔ x ∈ paths') →
  _collect_file_paths fnmatch set_order fs paths recursive glob
    glob_case_insensitive
  ≡ₚ _collect_file_paths fnmatch set_order fs paths' recursive glob
       glob_case_insensitive.
Proof.
  intros Hnd Hel Hsame. unfold _collect_file_paths.
  assert (set_order paths ≡ₚ set_order paths') as ->; [|done].
  apply NoDup_Permutation; [apply Hnd..|].
  intros x. by rewrite !Hel.
Qed.

(** X14.  What the case-insensitive mode does: for every ASCII glob and
    every file name, the case-insensitive filter gives the answer of the
    case-sensitive filter built from the lowercased glob; the file name is
    matched as it is. *)
Theorem matcher_case_insensitive_is_lowered_glob (glob name : string) :
  PyStr.is_ascii glob = true →
  _Matcher__call__ (_Matcher__init__ fnmatch glob true) name
  = _Matcher__call__ (_Matcher__init__ fnmatch (PyStr.lower glob) false) name.
Proof.
  intros _. rewrite !matcher_call. simpl. rewrite startswith_bang_lower.
  destruct (PyStr.startswith_bang glob); by rewrite ?lower_tail.
Qed.

End collector_more.

(** ** Instances on the example file systems *)

Lemma in_submission_order_perm l : in_submission_order l ≡ₚ l.
Proof. reflexivity. Qed.

Lemma file_hashes_raises_witness :
  returned (_file_hashes fs_scenario_a hashlib_md5 in_submission_order "md5"
              ["a.txt"; "missing.txt"] false)
  = None.
Proof.
  refine (proj2 (proj1
    (file_hashes_raises_iff_some_file_fails Fnmatch.fnmatch
       last_occurrence_order fs_scenario_a hashlib_md5 in_submission_order
       plain_style json_plain in_submission_order_perm
       ["a.txt"; "missing.txt"] None false txt "md5" [] false false None
       false)) _).
  exists "missing.txt". split; [|vm_compute; reflexivity].
  apply list_elem_of_further, list_elem_of_here.
Defined.

Lemma file_hashes_any_completion_order_witness :
  (λ hashes, PyDict.get hashes "5d41402abc4b2a76b9719d911017c592")
    <$> returned (_file_hashes fs_scenario_a hashlib_md5 in_submission_order
                    "md5" ["b.txt"; "a.txt"] false)
  = (λ hashes, PyDict.get hashes "5d41402abc4b2a76b9719d911017c592")
      <$> returned (_file_hashes fs_scenario_a hashlib_md5 reverse "md5"
                      ["b.txt"; "a.txt"] false).
Proof.
  refine (proj2 (proj2 (proj2
    (file_hashes_any_completion_order fs_scenario_a hashlib_md5
       in_submission_order in_submission_order_perm reverse "md5"
       ["b.txt"; "a.txt"] false "5d41402abc4b2a76b9719d911017c592" _)))).
  intros l. apply reverse_Permutation.
Defined.

Lemma main_quiet_exit_witness :
  (main Fnmatch.fnmatch last_occurrence_order fs_scenario_a hashlib_md5
     in_submission_order plain_style json_plain
     ["a.txt"; "b.txt"] None true csv "md5" [] true false None false).2
  = Some {| stdout := "";
            exit_code :=
              if decide (NoDup ["5d41402abc4b2a76b9719d911017c592";
                                "5d41402abc4b2a76b9719d911017c592"])
              then 1 else 0 |}.
Proof.
  apply (main_quiet_exit_iff_duplicates Fnmatch.fnmatch last_occurrence_order
           fs_scenario_a hashlib_md5 in_submission_order plain_style
           json_plain in_submission_order_perm
           ["a.txt"; "b.txt"] None csv "md5" true false None false
           (λ data, Some (MD5.hexdigest data))
           [list_byte_of_string "hello"; list_byte_of_string "hello"]
           ["5d41402abc4b2a76b9719d911017c592";
            "5d41402abc4b2a76b9719d911017c592"]).
  - reflexivity.
  - vm_compute. repeat constructor.
  - constructor; [vm_compute; reflexivity|].
    constructor; [vm_compute; reflexivity|]. constructor.
Defined.

Lemma main_match_exit_witness :
  exit_code
    <$> snd (main Fnmatch.fnmatch last_occurrence_order fs_scenario_a
               hashlib_md5 in_submission_order plain_style json_plain
               ["a.txt"; "b.txt"] None false txt "md5" ["abc123"] true false
               None false)
  = Some (if decide (Forall (λ d, d ∉ ["abc123"])
                       ["5d41402abc4b2a76b9719d911017c592";
                        "5d41402abc4b2a76b9719d911017c592"])
          then 1%Z else 0%Z).
Proof.
  apply (main_match_exit_iff_no_target Fnmatch.fnmatch last_occurrence_order
           fs_scenario_a hashlib_md5 in_submission_order plain_style
           json_plain in_submission_order_perm
           ["a.txt"; "b.txt"] None false txt "md5" "abc123" [] true false
           None false (λ data, Some (MD5.hexdigest data))
           [list_byte_of_string "hello"; list_byte_of_string "hello"]
           ["5d41402abc4b2a76b9719d911017c592";
            "5d41402abc4b2a76b9719d911017c592"]).
  - reflexivity.
  - vm_compute. repeat constructor.
  - constructor; [vm_compute; reflexivity|].
    constructor; [vm_compute; reflexivity|]. constructor.
Defined.

Lemma collect_yields_exactly_witness :
  "d/a.txt"
  ∈ _collect_file_paths Fnmatch.fnmatch last_occurrence_order fs_one_dir
      ["d"] true (Some "*.txt") false.
Proof.
  refine (proj2
    (collect_yields_exactly Fnmatch.fnmatch last_occurrence_order fs_one_dir
       ["d"] true (Some "*.txt") false "d/a.txt"
       last_occurrence_order_elem) _).
  split; [vm_compute; reflexivity|]. right. split; [reflexivity|].
  exists "d", "d", [], ["a.txt"], "a.txt".
  split_and!; try (vm_compute; reflexivity); apply list_elem_of_here.
Defined.

Lemma collect_depends_on_root_set_witness :
  _collect_file_paths Fnmatch.fnmatch last_occurrence_order fs_scenario_a
    ["a.txt"; "b.txt"] false None false
  ≡ₚ _collect_file_paths Fnmatch.fnmatch last_occurrence_order fs_scenario_a
       ["b.txt"; "a.txt"; "a.txt"] false None false.
Proof.
  apply (collect_depends_on_root_set Fnmatch.fnmatch last_occurrence_order
           fs_scenario_a ["a.txt"; "b.txt"] ["b.txt"; "a.txt"; "a.txt"]
           false None false).
  - exact last_occurrence_order_NoDup.
  - exact last_occurrence_order_elem.
  - intros x. rewrite !elem_of_cons, !elem_of_nil. tauto.
Defined.

Lemma matcher_case_insensitive_witness :
  _Matcher__call__ (_Matcher__init__ Fnmatch.fnmatch "!*.TXT" true) "a.txt"
  = _Matcher__call__
      (_Matcher__init__ Fnmatch.fnmatch (PyStr.lower "!*.TXT") false) "a.txt".
Proof.
  apply (matcher_case_insensitive_is_lowered_glob Fnmatch.fnmatch "!*.TXT"
           "a.txt").
  reflexivity.
Defined.

Lemma main_quiet_collected_twice_witness :
  (main Fnmatch.fnmatch last_occurrence_order fs_one_dir hashlib_md5
     in_submission_order plain_style json_plain
     ["d"; "d/a.txt"] None true txt "md5" [] true true None false).2
  = Some {| stdout := ""; exit_code := 0 |}.
Proof.
  apply (main_quiet_collected_twice Fnmatch.fnmatch last_occurrence_order
           fs_one_dir hashlib_md5 in_submission_order plain_style json_plain
           in_submission_order_perm
           ["d"; "d/a.txt"] None txt "md5" true true None false
           (λ data, Some (MD5.hexdigest data))
           [list_byte_of_string "hello"; list_byte_of_string "hello"]
           ["5d41402abc4b2a76b9719d911017c592";
            "5d41402abc4b2a76b9719d911017c592"]).
  - reflexivity.
  - vm_compute. repeat constructor.
  - constructor; [vm_compute; reflexivity|].
    constructor; [vm_compute; reflexivity|]. constructor.
  - intros H. apply (bool_decide_pack _) in H. vm_compute in H. exact H.
Defined.

(** ** The report on an empty dictionary *)

Lemma string_app_nil_r (s : string) : s +:+ "" = s.
Proof.
  induction s as [|c s IH]; [done|].
  change (String c (s +:+ "") = String c s). by rewrite IH.
Qed.

(** X15.  What is printed when nothing is retained: the text report is
    empty in both modes, the JSON report is the empty object followed by a
    line feed, and the CSV report is the header row alone. *)
Theorem render_nothing_retained
    (click_style : string → string → bool → string)
    (json_str : string → string) (fmt : output_format)
    (hash_algorithm : string) (match_digests : list string) :
  main_render click_style json_str fmt hash_algorithm match_digests []
  = match fmt with
    | txt => ""
    | json => "{}" +:+ PyStr.LF
    | csv => Csv.writerow [hash_algorithm; "path"]
    end.
Proof.
  destruct fmt; simpl.
  - by destruct match_digests.
  - done.
  - unfold _write_csv. apply string_app_nil_r.
Qed.
